(** * meson.py: directory-role resolution and pipeline orchestration

    A shallow embedding of [meson.py] (the command-line front end of the
    build system) and the properties of its directory resolver, its option
    table, its backend dispatch and its stage ordering.

    The program talks to the operating system (getcwd, stat, open), to
    optparse and to four collaborator modules (environment, build,
    interpreter, generators).  The operating system and the collaborators
    are a record of oracles, [World]; every call to them is logged in a
    trace, so that "before", "after" and "never" are statements about
    that trace.  Python exceptions are an error monad over the state. *)

From stdpp Require Import gmap strings list.
From Stdlib Require Import ZArith Ascii String List Bool Lia.
Import ListNotations.
Local Open Scope string_scope.
Local Open Scope Z_scope.

(** ** Python strings *)

Module Str.

(** [s.startswith(p)] *)
Definition startswith (p s : string) : bool := String.prefix p s.

(** [s.endswith("/")] *)
Fixpoint endswith_sep (s : string) : bool :=
  match s with
  | EmptyString => false
  | String c EmptyString => Ascii.eqb c "/"
  | String _ s' => endswith_sep s'
  end.

(** [s.split(sep)] for a one-character separator: never empty, and
    [""] splits to [[""]]. *)
Fixpoint split (sep : ascii) (s : string) : list string :=
  match s with
  | EmptyString => [EmptyString]
  | String c s' =>
      if Ascii.eqb c sep then EmptyString :: split sep s'
      else match split sep s' with
           | [] => [String c EmptyString]
           | h :: t => String c h :: t
           end
  end.

(** [sep * n] *)
Fixpoint times (sep : string) (n : nat) : string :=
  match n with
  | O => EmptyString
  | S n' => sep ++ times sep n'
  end.

(** The double-quote character, as it appears inside a Python literal. *)
Definition dquote : string := String (ascii_of_nat 34) EmptyString.

End Str.

(** ** posixpath *)

Module posixpath.

Definition isabs (s : string) : bool := Str.startswith "/" s.

(** [join(a, b)]: an absolute [b] discards [a]. *)
Definition join (a b : string) : string :=
  if Str.startswith "/" b then b
  else if String.eqb a "" || Str.endswith_sep a then a ++ b
  else a ++ "/" ++ b.

Definition is_nil {A} (l : list A) : bool :=
  match l with [] => true | _ => false end.

(** One turn of the loop of [normpath] over the components. *)
Definition normpath_step (initial_slashes : nat) (new_comps : list string)
    (comp : string) : list string :=
  if String.eqb comp "" || String.eqb comp "." then new_comps
  else if negb (String.eqb comp "..")
          || (Nat.eqb initial_slashes 0 && is_nil new_comps)
          || (negb (is_nil new_comps)
              && String.eqb (List.last new_comps "") "..")
  then (new_comps ++ [comp])%list
  else if negb (is_nil new_comps) then removelast new_comps
  else new_comps.

Definition initial_slashes (path : string) : nat :=
  if Str.startswith "/" path then
    if Str.startswith "//" path && negb (Str.startswith "///" path)
    then 2%nat else 1%nat
  else 0%nat.

Definition normpath (path : string) : string :=
  if String.eqb path "" then "."
  else
    let n := initial_slashes path in
    let comps := fold_left (normpath_step n) (Str.split "/" path) [] in
    let path' := Str.times "/" n ++ String.concat "/" comps in
    if String.eqb path' "" then "." else path'.

End posixpath.

(** ** stat *)

Record stat_result := mk_stat { st_mode : Z; st_ino : Z; st_dev : Z }.

Module stat.
Definition S_IFMT (mode : Z) : Z := Z.land mode 61440.   (* 0o170000 *)
Definition S_IFDIR : Z := 16384.                          (* 0o040000 *)
Definition S_ISDIR (mode : Z) : bool := S_IFMT mode =? S_IFDIR.
End stat.

(** [os.path.samestat] *)
Definition samestat (s1 s2 : stat_result) : bool :=
  (st_ino s1 =? st_ino s2) && (st_dev s1 =? st_dev s2).

(** ** Option values

    [optparse.Values] is an attribute bag; its [__dict__] is a finite
    map from attribute names to values, which here are strings or
    booleans. *)

Inductive OptValue := VStr (s : string) | VBool (b : bool).

Definition Values := gmap string OptValue.

(** ** Exceptions, events, the world *)

Inductive Exn :=
| RuntimeError (msg : string)
| OSError (path : string)
| IndexError
| TypeError
| NameError (name : string)
| AttributeError (name : string)
| SystemExit (code : Z)
| OptionValueError
| CollaboratorError (what : string).

Inductive Generator := ShellGenerator | NinjaGenerator.

Inductive Event :=
(* operating system *)
| EGetcwd
| EStat (path : string)
| EOpen (path : string)
(* standard output and optparse's own output *)
| EPrint (line : string)
| EPrintHelp
| EUsageError
(* collaborators *)
| EEnvironment (source_dir build_dir script : string) (opts : Values)
| EBuild
| EInterpreter
| EInterpreterRun
| EGeneratorNew (g : Generator)
| EGenerate (g : Generator).

(** What the program cannot decide by itself. [os_stat] follows
    symbolic links and answers [None] where [os.stat] raises;
    [can_open] tells whether [open(p, 'r')] succeeds; [collaborator]
    gives the exception a collaborator call raises, if any. *)
Record World := mk_World {
  getcwd : string;
  os_stat : string -> option stat_result;
  can_open : string -> bool;
  builder_filename : string;          (* environment.builder_filename *)
  file__ : string;                    (* __file__ *)
  collaborator : Event -> option Exn
}.

(** ** The BuilderApp object and the program state *)

Record BuilderApp := mk_BuilderApp {
  source_dir : option string;
  build_dir : option string;
  builder_script_file : option string;
  options : option Values
}.

Definition new_object : BuilderApp := mk_BuilderApp None None None None.

(** [globals_options] is the module-level name [options], bound by the
    script body (line 104) and read by [validate_dirs] and [generate]. *)
Record State := mk_State {
  globals_options : option Values;
  self : BuilderApp;
  trace : list Event
}.

Definition initial_state : State := mk_State None new_object [].

(** ** The monad: state and exceptions *)

Inductive Result (A : Type) := Ok (a : A) | Raise (e : Exn).
Arguments Ok {A} a.
Arguments Raise {A} e.

Definition M (A : Type) : Type := State -> Result A * State.

Definition ret {A} (a : A) : M A := fun s => (Ok a, s).

Definition bind {A B} (m : M A) (k : A -> M B) : M B :=
  fun s => match m s with
           | (Ok a, s') => k a s'
           | (Raise e, s') => (Raise e, s')
           end.

Definition raise {A} (e : Exn) : M A := fun s => (Raise e, s).

Declare Scope monad_scope.
Delimit Scope monad_scope with monad.
Notation "x <- m ;; k" := (bind m (fun x => k))
  (at level 100, m at next level, right associativity) : monad_scope.
Notation "m ;; k" := (bind m (fun _ => k))
  (at level 100, right associativity) : monad_scope.
Local Open Scope monad_scope.

Definition emit (e : Event) : M unit :=
  fun s => (Ok tt, mk_State (globals_options s) (self s) (trace s ++ [e])%list).

Definition get_self : M BuilderApp := fun s => (Ok (self s), s).

Definition set_self (b : BuilderApp) : M unit :=
  fun s => (Ok tt, mk_State (globals_options s) b (trace s)).

Definition set_globals_options (o : Values) : M unit :=
  fun s => (Ok tt, mk_State (Some o) (self s) (trace s)).

(** Reading the global name [options]. *)
Definition read_options : M Values :=
  fun s => match globals_options s with
           | Some o => (Ok o, s)
           | None => (Raise (NameError "options"), s)
           end.

(** Reading an attribute of [self]. *)
Definition self_attr {A} (name : string) (f : BuilderApp -> option A) : M A :=
  b <- get_self ;;
  match f b with
  | Some a => ret a
  | None => raise (AttributeError name)
  end.

(** [try: m  except IOError: h] ([IOError] is [OSError]). *)
Definition try_except_IOError {A} (m h : M A) : M A :=
  fun s => match m s with
           | (Raise (OSError _), s') => h s'
           | r => r
           end.

(** [l[i]] *)
Definition index (l : list string) (i : nat) : M string :=
  match nth_error l i with
  | Some x => ret x
  | None => raise IndexError
  end.

(** ** optparse, as far as this parser uses it *)

Module optparse.

Inductive Action := store | store_true | help | version.

Record Option_ := mk_Option {
  long_opts : list string;
  short_opts : list string;
  action : Action;
  dest : option string;
  default : option OptValue;
  choices : option (list string)      (* type='choice' *)
}.

Definition takes_value (o : Option_) : bool :=
  match action o with store => true | _ => false end.

(** [Option.check_value]: only the choice type has a checker. *)
Definition check_value (o : Option_) (value : string) : bool :=
  match choices o with
  | Some cs => existsb (String.eqb value) cs
  | None => true
  end.

(** [OptionParser.defaults] after the [add_option] calls. *)
Definition defaults (parser : list Option_) : Values :=
  fold_left
    (fun d o => match dest o, default o with
                | Some a, Some v => <[a := v]> d
                | _, _ => d
                end)
    parser ∅.

(** [get_default_values]: string defaults go through [check_value]. *)
Definition get_default_values (parser : list Option_) : M Values :=
  if forallb (fun o => match default o with
                       | Some (VStr v) => check_value o v
                       | _ => true
                       end) parser
  then ret (defaults parser)
  else raise OptionValueError.

(** [parser.error(msg)]: usage and message on stderr, exit status 2. *)
Definition error {A} : M A := emit EUsageError ;; raise (SystemExit 2).

(** [option.process(opt, value, values, parser)] *)
Definition process (version_string : string) (o : Option_)
    (value : option string) (values : Values) : M Values :=
  (match value with
   | Some v => if check_value o v then ret tt else error
   | None => ret tt
   end) ;;
  match action o, dest o, value with
  | store, Some a, Some v => ret (<[a := VStr v]> values)
  | store_true, Some a, _ => ret (<[a := VBool true]> values)
  | help, _, _ => emit EPrintHelp ;; raise (SystemExit 0)
  | version, _, _ => emit (EPrint version_string) ;; raise (SystemExit 0)
  | _, _, _ => ret values
  end.

(** [_match_abbrev(s, wordmap)] over the long option strings. *)
Definition _match_long_opt (parser : list Option_) (s : string)
  : option Option_ :=
  match List.find (fun o => existsb (String.eqb s) (long_opts o)) parser with
  | Some o => Some o
  | None =>
      let possibilities :=
        flat_map (fun o => map (fun _ => o)
                             (List.filter (Str.startswith s) (long_opts o)))
                 parser in
      match possibilities with
      | [o] => Some o
      | _ => None
      end
  end.

Definition _short_opt (parser : list Option_) (ch : ascii) : option Option_ :=
  List.find (fun o => existsb (String.eqb (String "-" (String ch "")))
                        (short_opts o)) parser.

(** [arg.split("=", 1)] when ["=" in arg]. *)
Fixpoint split_eq (arg : string) : string * option string :=
  match arg with
  | EmptyString => (EmptyString, None)
  | String c s =>
      if Ascii.eqb c "=" then (EmptyString, Some s)
      else let '(o, v) := split_eq s in (String c o, v)
  end.

(** The loop of [_process_short_opts] over [arg[1:]]; the answer says
    which option, if any, still waits for the next argument. *)
Fixpoint short_cluster (parser : list Option_) (version_string : string)
    (chars : string) (values : Values) : M (Values * option Option_) :=
  match chars with
  | EmptyString => ret (values, None)
  | String ch tl =>
      match _short_opt parser ch with
      | None => error
      | Some o =>
          if takes_value o then
            match tl with
            | EmptyString => ret (values, Some o)
            | _ => values' <- process version_string o (Some tl) values ;;
                   ret (values', None)
            end
          else
            values' <- process version_string o None values ;;
            short_cluster parser version_string tl values'
      end
  end.

(** [_process_args] with interspersed arguments allowed: the answer
    is the values and [largs + rargs]. *)
Fixpoint _process_args (parser : list Option_) (version_string : string)
    (rargs largs : list string) (values : Values)
  : M (Values * list string) :=
  match rargs with
  | [] => ret (values, largs)
  | arg :: rest =>
      if String.eqb arg "--" then ret (values, (largs ++ rest)%list)
      else if Str.startswith "--" arg then
        let '(opt, explicit) := split_eq arg in
        match _match_long_opt parser opt with
        | None => error
        | Some o =>
            if takes_value o then
              match explicit, rest with
              | Some v, _ =>
                  values' <- process version_string o (Some v) values ;;
                  _process_args parser version_string rest largs values'
              | None, v :: rest' =>
                  values' <- process version_string o (Some v) values ;;
                  _process_args parser version_string rest' largs values'
              | None, [] => error
              end
            else
              match explicit with
              | Some _ => error
              | None =>
                  values' <- process version_string o None values ;;
                  _process_args parser version_string rest largs values'
              end
        end
      else if Str.startswith "-" arg && (1 <? String.length arg)%nat then
        r <- short_cluster parser version_string
               (String.substring 1 (String.length arg - 1) arg) values ;;
        match r, rest with
        | (values', None), _ =>
            _process_args parser version_string rest largs values'
        | (values', Some o), v :: rest' =>
            values'' <- process version_string o (Some v) values' ;;
            _process_args parser version_string rest' largs values''
        | (_, Some _), [] => error
        end
      else _process_args parser version_string rest (largs ++ [arg])%list values
  end.

Definition parse_args (parser : list Option_) (version_string : string)
    (args : list string) : M (Values * list string) :=
  values <- get_default_values parser ;;
  _process_args parser version_string args [] values.

End optparse.

(** ** meson.py *)

Definition version : string := "0.1-research".

Definition build_types : list string := ["plain"; "debug"; "optimized"].

(** The parser of lines 27 to 52: optparse's own [--version] and
    [--help], then the ten [add_option] calls. *)
Definition parser : list optparse.Option_ :=
  let opt := optparse.mk_Option in
  [ opt ["--version"] [] optparse.version None None None;
    opt ["--help"] ["-h"] optparse.help None None None;
    opt ["--prefix"] [] optparse.store (Some "prefix")
        (Some (VStr "/usr/local")) None;
    opt ["--libdir"] [] optparse.store (Some "libdir") (Some (VStr "lib")) None;
    opt ["--bindir"] [] optparse.store (Some "bindir") (Some (VStr "bin")) None;
    opt ["--includedir"] [] optparse.store (Some "includedir")
        (Some (VStr "include")) None;
    opt ["--datadir"] [] optparse.store (Some "datadir")
        (Some (VStr "share")) None;
    opt ["--mandir"] [] optparse.store (Some "mandir")
        (Some (VStr "share/man")) None;
    opt ["--generator"] ["-G"] optparse.store (Some "generator")
        (Some (VStr "ninja")) None;
    opt ["--buildtype"] [] optparse.store (Some "buildtype")
        (Some (VStr "debug")) (Some build_types);
    opt ["--strip"] [] optparse.store_true (Some "strip")
        (Some (VBool false)) None;
    opt ["--enable-gcov"] [] optparse.store_true (Some "coverage")
        (Some (VBool false)) None ].

Section Program.

Variable w : World.

(** *** Operating-system calls *)

Definition os_getcwd : M string := emit EGetcwd ;; ret (getcwd w).

(** [os.stat(path)] *)
Definition stat_call (path : string) : M stat_result :=
  emit (EStat path) ;;
  match os_stat w path with
  | Some r => ret r
  | None => raise (OSError path)
  end.

(** [open(fname, 'r')], then [close()] *)
Definition open_r (fname : string) : M unit :=
  emit (EOpen fname) ;;
  if can_open w fname then ret tt else raise (OSError fname).

(** [os.path.abspath(path)] *)
Definition abspath (path : string) : M string :=
  if posixpath.isabs path then ret (posixpath.normpath path)
  else cwd <- os_getcwd ;;
       ret (posixpath.normpath (posixpath.join cwd path)).

(** [os.path.samefile(f1, f2)] *)
Definition samefile (f1 f2 : string) : M bool :=
  s1 <- stat_call f1 ;;
  s2 <- stat_call f2 ;;
  ret (samestat s1 s2).

(** *** class BuilderApp *)

(** Lines 63 to 70. *)
Definition has_builder_file (dirname : string) : M bool :=
  let fname := posixpath.join dirname (builder_filename w) in
  try_except_IOError (open_r fname ;; ret true) (ret false).

(** Lines 72 to 88. *)
Definition validate_dirs (dir1 dir2 : string) : M (string * string) :=
  ndir1 <- abspath dir1 ;;
  ndir2 <- abspath dir2 ;;
  s1 <- stat_call ndir1 ;;
  (if negb (stat.S_ISDIR (st_mode s1))
   then raise (RuntimeError (dir1 ++ " is not a directory"))
   else ret tt) ;;
  s2 <- stat_call ndir2 ;;
  (if negb (stat.S_ISDIR (st_mode s2))
   then raise (RuntimeError (dir2 ++ " is not a directory"))
   else ret tt) ;;
  o <- read_options ;;
  b <- get_self ;;
  set_self (mk_BuilderApp (source_dir b) (build_dir b)
              (builder_script_file b) (Some o)) ;;
  same <- samefile dir1 dir2 ;;
  (if same
   then raise (RuntimeError "Source and build directories must not be the same. Create a pristine build directory.")
   else ret tt) ;;
  h1 <- has_builder_file ndir1 ;;
  if h1 then
    h2 <- has_builder_file ndir2 ;;
    if h2
    then raise (RuntimeError ("Both directories contain a build file "
                                ++ builder_filename w ++ "."))
    else ret (ndir1, ndir2)
  else
    h2 <- has_builder_file ndir2 ;;
    if h2 then ret (ndir2, ndir1)
    else raise (RuntimeError ("Neither directory contains a build file "
                                ++ builder_filename w ++ ".")).

(** [options.prefix[0] != '/'] of line 58. *)
Definition prefix_is_relative (opts : Values) : M bool :=
  match opts !! "prefix" with
  | None => raise (AttributeError "prefix")
  | Some (VBool _) => raise TypeError
  | Some (VStr EmptyString) => raise IndexError
  | Some (VStr (String c _)) => ret (negb (Ascii.eqb c "/"))
  end.

(** Lines 56 to 61, on a fresh object. *)
Definition __init__ (dir1 dir2 script_file : string) (opts : Values)
  : M unit :=
  set_self new_object ;;
  p <- validate_dirs dir1 dir2 ;;
  b <- get_self ;;
  set_self (mk_BuilderApp (Some (fst p)) (Some (snd p))
              (builder_script_file b) (options b)) ;;
  rel <- prefix_is_relative opts ;;
  (if rel then raise (RuntimeError "--prefix must be an absolute path.")
   else ret tt) ;;
  b <- get_self ;;
  set_self (mk_BuilderApp (source_dir b) (build_dir b)
              (Some script_file) (options b)) ;;
  b <- get_self ;;
  set_self (mk_BuilderApp (source_dir b) (build_dir b)
              (builder_script_file b) (Some opts)).

(** A call to a collaborator: logged, then it returns or raises. *)
Definition call (e : Event) : M unit :=
  emit e ;;
  match collaborator w e with
  | Some x => raise x
  | None => ret tt
  end.

(** The [if]/[elif]/[else] of lines 95 to 100, up to the constructor
    call: which generator class the name selects. *)
Definition select_generator (opts : Values) : M Generator :=
  match opts !! "generator" with
  | None => raise (AttributeError "generator")
  | Some (VStr name) =>
      if String.eqb name "shell" then ret ShellGenerator
      else if String.eqb name "ninja" then ret NinjaGenerator
      else raise (RuntimeError ("Unknown generator " ++ Str.dquote
                                  ++ name ++ Str.dquote ++ "."))
  | Some (VBool b) =>
      raise (RuntimeError ("Unknown generator " ++ Str.dquote
                             ++ (if b then "True" else "False")
                             ++ Str.dquote ++ "."))
  end.

(** Lines 90 to 101. *)
Definition generate : M unit :=
  src <- self_attr "source_dir" source_dir ;;
  bld <- self_attr "build_dir" build_dir ;;
  script <- self_attr "builder_script_file" builder_script_file ;;
  o <- read_options ;;
  call (EEnvironment src bld script o) ;;
  call EBuild ;;
  call EInterpreter ;;
  call EInterpreterRun ;;
  o <- read_options ;;
  g <- select_generator o ;;
  call (EGeneratorNew g) ;;
  call (EGenerate g).

(** *** The script body, lines 103 to 118 *)

Definition usage_lines (argv : list string) : M unit :=
  prog <- index argv 0 ;;
  emit (EPrint (prog ++ " <source directory> <build directory>")) ;;
  emit (EPrint "If you omit either directory, the current directory is substituted.") ;;
  raise (SystemExit 1).

(** Lines 114 to 118. *)
Definition startup (dir1 dir2 : string) (opts : Values) : M unit :=
  this_file <- abspath (file__ w) ;;
  __init__ dir1 dir2 this_file opts ;;
  src <- self_attr "source_dir" source_dir ;;
  emit (EPrint ("Source dir: " ++ src)) ;;
  bld <- self_attr "build_dir" build_dir ;;
  emit (EPrint ("Build dir: " ++ bld)) ;;
  generate.

(** Lines 104 to 113, then [startup]. *)
Definition main (argv : list string) : M unit :=
  r <- optparse.parse_args parser version argv ;;
  let '(opts, args) := r in
  set_globals_options opts ;;
  (if (length args =? 1)%nat || (3 <? length args)%nat
   then usage_lines argv
   else ret tt) ;;
  dir1 <- index args 1 ;;
  dir2 <- (if (2 <? length args)%nat then index args 2 else ret ".") ;;
  startup dir1 dir2 opts.

End Program.

(** ** Vocabulary of the specification *)

(** The error kinds are [RuntimeError]s told apart by their message. *)
Definition InvalidPrefixError : Exn :=
  RuntimeError "--prefix must be an absolute path.".

Definition NotADirectoryError (path : string) : Exn :=
  RuntimeError (path ++ " is not a directory").

Definition SameDirectoryError : Exn :=
  RuntimeError "Source and build directories must not be the same. Create a pristine build directory.".

Definition AmbiguousMarkerError (w : World) : Exn :=
  RuntimeError ("Both directories contain a build file "
                  ++ builder_filename w ++ ".").

Definition MissingMarkerError (w : World) : Exn :=
  RuntimeError ("Neither directory contains a build file "
                  ++ builder_filename w ++ ".").

Definition UnknownGeneratorError (name : string) : Exn :=
  RuntimeError ("Unknown generator " ++ Str.dquote ++ name
                  ++ Str.dquote ++ ".").

(** The value [os.path.abspath] returns, and the events it causes. *)
Definition abspath_value (w : World) (path : string) : string :=
  if posixpath.isabs path then posixpath.normpath path
  else posixpath.normpath (posixpath.join (getcwd w) path).

Definition abspath_events (path : string) : list Event :=
  if posixpath.isabs path then [] else [EGetcwd].

(** The canonical form of [path] passes the test of lines 75 and 77. *)
Definition is_dir (w : World) (path : string) : bool :=
  match os_stat w (abspath_value w path) with
  | Some r => stat.S_ISDIR (st_mode r)
  | None => false
  end.

(** The canonical form of [path] exists. *)
Definition exists_ (w : World) (path : string) : bool :=
  match os_stat w (abspath_value w path) with
  | Some _ => true
  | None => false
  end.

(** The first argument, in order, whose canonical form is not a
    directory. *)
Definition first_non_directory (w : World) (dir1 dir2 : string)
  : option string :=
  if negb (is_dir w dir1) then Some dir1
  else if negb (is_dir w dir2) then Some dir2
  else None.

(** What [os.path.samefile] answers on the two arguments as given;
    [None] when [os.stat] fails on one of them. *)
Definition same_entity (w : World) (f1 f2 : string) : option bool :=
  match os_stat w f1, os_stat w f2 with
  | Some s1, Some s2 => Some (samestat s1 s2)
  | _, _ => None
  end.

(** Two arguments that pass the directory test and name two
    different filesystem entries. *)
Definition distinct_directories (w : World) (dir1 dir2 : string) : Prop :=
  is_dir w dir1 = true /\ is_dir w dir2 = true /\
  same_entity w dir1 dir2 = Some false.

(** The canonical form of [path] holds a readable marker file. *)
Definition has_marker (w : World) (path : string) : bool :=
  can_open w (posixpath.join (abspath_value w path) (builder_filename w)).

(** The outcome of the marker phase of lines 82 to 88, from the two
    probes. *)
Definition marker_outcome (w : World) (dir1 dir2 : string)
  : Result (string * string) :=
  match has_marker w dir1, has_marker w dir2 with
  | true, true => Raise (AmbiguousMarkerError w)
  | true, false => Ok (abspath_value w dir1, abspath_value w dir2)
  | false, true => Ok (abspath_value w dir2, abspath_value w dir1)
  | false, false => Raise (MissingMarkerError w)
  end.

(** The same world with another state of the marker files. *)
Definition with_markers (w : World) (probe : string -> bool) : World :=
  mk_World (getcwd w) (os_stat w) probe (builder_filename w) (file__ w)
    (collaborator w).

Definition is_fs_event (e : Event) : bool :=
  match e with EGetcwd | EStat _ | EOpen _ => true | _ => false end.

Definition is_probe (e : Event) : bool :=
  match e with EOpen _ => true | _ => false end.

Definition is_collaborator (e : Event) : bool :=
  match e with
  | EEnvironment _ _ _ _ | EBuild | EInterpreter | EInterpreterRun
  | EGeneratorNew _ | EGenerate _ => true
  | _ => false
  end.

(** The state after more events. *)
Definition log (s : State) (evs : list Event) : State :=
  mk_State (globals_options s) (self s) (trace s ++ evs)%list.

(** The six collaborator calls of a complete run of [generate]. *)
Definition stages (src bld script : string) (o : Values) (g : Generator)
  : list Event :=
  [EEnvironment src bld script o; EBuild; EInterpreter; EInterpreterRun;
   EGeneratorNew g; EGenerate g].

(** The defaults of the option table, written out. *)
Definition default_configuration : Values :=
  list_to_map
    [ ("prefix", VStr "/usr/local"); ("libdir", VStr "lib");
      ("bindir", VStr "bin"); ("includedir", VStr "include");
      ("datadir", VStr "share"); ("mandir", VStr "share/man");
      ("generator", VStr "ninja"); ("buildtype", VStr "debug");
      ("strip", VBool false); ("coverage", VBool false) ].

(** No argument is an option: none starts with a dash. *)
Definition no_options (argv : list string) : bool :=
  forallb (fun a => negb (Str.startswith "-" a)) argv.

(** The marker file the resolver probes for [dir]. *)
Definition marker_file (w : World) (dir : string) : string :=
  posixpath.join (abspath_value w dir) (builder_filename w).

(** The state once both directory tests and the same-entity test have
    been made: [self.options] is set and six or fewer system calls are
    in the trace. *)
Definition checked (w : World) (s : State) (o : Values) (dir1 dir2 : string)
  : State :=
  mk_State (globals_options s)
    (mk_BuilderApp (source_dir (self s)) (build_dir (self s))
       (builder_script_file (self s)) (Some o))
    (trace s ++ abspath_events dir1 ++ abspath_events dir2
       ++ [EStat (abspath_value w dir1); EStat (abspath_value w dir2);
           EStat dir1; EStat dir2])%list.

(** The two probes of a resolution that reaches the marker phase. *)
Definition probes (w : World) (dir1 dir2 : string) : list Event :=
  [EOpen (marker_file w dir1); EOpen (marker_file w dir2)].

(** The state in which [__init__] starts on a fresh object. *)
Definition fresh (s : State) : State :=
  mk_State (globals_options s) new_object (trace s).

(** The state after line 57 has stored the resolved pair. *)
Definition resolved (s : State) (p : string * string) : State :=
  mk_State (globals_options s)
    (mk_BuilderApp (Some (fst p)) (Some (snd p))
       (builder_script_file (self s)) (options (self s)))
    (trace s).

(** The state after [__init__] has returned. *)
Definition constructed (s : State) (p : string * string) (script : string)
    (opts : Values) : State :=
  mk_State (globals_options s)
    (mk_BuilderApp (Some (fst p)) (Some (snd p)) (Some script) (Some opts))
    (trace s).

(** [m] adds events to the trace and all of them satisfy [P]. *)
Definition emits {A} (P : Event -> Prop) (m : M A) : Prop :=
  forall s, exists evs,
    trace (snd (m s)) = (trace s ++ evs)%list /\ Forall P evs.

(** The object is built and [options] is bound: [generate] can start. *)
Definition ready (s : State) (src bld script : string) (o : Values) : Prop :=
  source_dir (self s) = Some src /\ build_dir (self s) = Some bld /\
  builder_script_file (self s) = Some script /\
  globals_options s = Some o.

(** The first three stages of [generate] raise nothing. *)
Definition interprets (w : World) (src bld script : string) (o : Values)
  : Prop :=
  collaborator w (EEnvironment src bld script o) = None /\
  collaborator w EBuild = None /\
  collaborator w EInterpreter = None /\
  collaborator w EInterpreterRun = None.

(** Every call in [evs] but the last returned without raising. *)
Fixpoint gated (w : World) (evs : list Event) : Prop :=
  match evs with
  | [] => True
  | e :: rest =>
      match rest with
      | [] => True
      | _ => collaborator w e = None /\ gated w rest
      end
  end.

(** [e] is a call to the operating system. *)
Definition fs_event (e : Event) : Prop := is_fs_event e = true.

(** The state once line 104 has bound the global name [options]. *)
Definition bound (s : State) (o : Values) : State :=
  mk_State (Some o) (self s) (trace s).

(** The two lines of the usage message. *)
Definition usage_message (prog : string) : list Event :=
  [EPrint (prog ++ " <source directory> <build directory>");
   EPrint "If you omit either directory, the current directory is substituted."].

(** ** A small project tree for the examples

    The current directory [/home/u/proj] holds a source directory
    [src] with the marker file, an empty directory [out] and nothing
    else; relative paths are resolved from the current directory, and
    the empty path resolves to nothing. *)

Module Example.

Definition dir_mode : Z := 16877.     (* 0o040755 *)
Definition file_mode : Z := 33188.    (* 0o100644 *)

Definition tree : list (string * stat_result) :=
  [ ("/home/u/proj", mk_stat dir_mode 11 1);
    ("/home/u/proj/src", mk_stat dir_mode 12 1);
    ("/home/u/proj/out", mk_stat dir_mode 13 1);
    ("/home/u/proj/src/meson.build", mk_stat file_mode 14 1) ].

Fixpoint assoc (k : string) (l : list (string * stat_result))
  : option stat_result :=
  match l with
  | [] => None
  | (k', v) :: t => if String.eqb k k' then Some v else assoc k t
  end.

Definition lookup_path (p : string) : option stat_result :=
  if String.eqb p "" then None
  else assoc (posixpath.normpath (posixpath.join "/home/u/proj" p)) tree.

Definition world : World :=
  mk_World "/home/u/proj" lookup_path
    (fun p => String.eqb p "/home/u/proj/src/meson.build")
    "meson.build" "meson.py" (fun _ => None).

(** The same tree when the interpreter fails. *)
Definition world_bad_project : World :=
  mk_World "/home/u/proj" lookup_path
    (fun p => String.eqb p "/home/u/proj/src/meson.build")
    "meson.build" "meson.py"
    (fun e => match e with
              | EInterpreterRun => Some (CollaboratorError "interpreter")
              | _ => None
              end).

(** The options after [--prefix=relative/path]. *)
Definition relative_prefix : Values :=
  <["prefix" := VStr "relative/path"]> default_configuration.

(** The state once the script body has bound [options]. *)
Definition started (o : Values) : State := mk_State (Some o) new_object [].

(** The options after [-G bogus]. *)
Definition bogus_generator : Values :=
  <["generator" := VStr "bogus"]> default_configuration.

(** The state once the object is built on [src] and [out]. *)
Definition built (o : Values) : State :=
  mk_State (Some o)
    (mk_BuilderApp (Some "/home/u/proj/src") (Some "/home/u/proj/out")
       (Some "/home/u/proj/meson.py") (Some o))
    [].

End Example.

(** ** Further vocabulary *)

Definition is_getcwd (e : Event) : bool :=
  match e with EGetcwd => true | _ => false end.

Definition is_stat (e : Event) : bool :=
  match e with EStat _ => true | _ => false end.

(** [e] is something written to the terminal, by the script or by
    optparse. *)
Definition is_output (e : Event) : bool :=
  match e with EPrint _ | EPrintHelp | EUsageError => true | _ => false end.

(** The same state with another value of [self.options]. *)
Definition with_self_options (s : State) (o : option Values) : State :=
  mk_State (globals_options s)
    (mk_BuilderApp (source_dir (self s)) (build_dir (self s))
       (builder_script_file (self s)) o)
    (trace s).

(** [v] has the attributes of the defaults, each with the type of its
    default, and its build type is one of the three choices. *)
Definition typed (v : Values) : Prop :=
  forall k,
    match default_configuration !! k, v !! k with
    | Some (VStr _), Some (VStr x) => k = "buildtype" -> In x build_types
    | Some (VBool _), Some (VBool _) => True
    | None, None => True
    | _, _ => False
    end.

(** How optparse leaves: status 0 after help or the version, status 2
    after a usage error. *)
Definition optparse_exit (e : Exn) (ev : Event) : Prop :=
  (e = SystemExit 0 /\ (ev = EPrintHelp \/ ev = EPrint version)) \/
  (e = SystemExit 2 /\ ev = EUsageError).

(** What a run of the option parser from state [s] can give, [pool]
    being the arguments it was given: typed values, arguments taken
    from the pool in order and an unchanged state, or one line of
    output and an exit. *)
Definition parse_outcome (s : State) (pool : list string)
    (r : Result (Values * list string) * State) : Prop :=
  match r with
  | (Ok (opts, args), s') => s' = s /\ typed opts /\ sublist args pool
  | (Raise e, s') => exists ev, s' = log s [ev] /\ optparse_exit e ev
  end.

(** [m] behaves the same whatever [self.options] holds, and leaves it
    as it found it. *)
Definition ignores_self_options {A} (m : M A) : Prop :=
  forall s o',
    m (with_self_options s o')
    = (fst (m s), with_self_options (snd (m s)) o').

(** ** The stages as a sequence of calls *)

(** The four calls of lines 91 to 94. *)
Definition first_stages (src bld script : string) (o : Values) : list Event :=
  [EEnvironment src bld script o; EBuild; EInterpreter; EInterpreterRun].

(** The generator class the name of lines 95 to 98 stands for. *)
Definition selected_generator (name : string) : option Generator :=
  if String.eqb name "shell" then Some ShellGenerator
  else if String.eqb name "ninja" then Some NinjaGenerator
  else None.

(** Calls made one after the other, each once the one before it has
    returned: the calls that are made, up to and with the first that
    raises. *)
Fixpoint attempted (w : World) (calls : list Event) : list Event :=
  match calls with
  | [] => []
  | e :: rest =>
      match collaborator w e with
      | Some _ => [e]
      | None => e :: attempted w rest
      end
  end.

(** What the first call that raises raises, if one does. *)
Fixpoint first_failure (w : World) (calls : list Event) : option Exn :=
  match calls with
  | [] => None
  | e :: rest =>
      match collaborator w e with
      | Some x => Some x
      | None => first_failure w rest
      end
  end.

(** ** mesongui.py: the table of installation paths

    [PathModel] is the Qt item model behind the path view: one row per
    installation directory, the label in column 0 and the path, an
    attribute of the core data, in column 1.  The core data is an
    attribute bag of path strings. *)

(** [l[i]] for a Python integer: a negative index counts from the end. *)
Definition getitem {A} (l : list A) (i : Z) : option A :=
  let n := Z.of_nat (length l) in
  if 0 <=? i then nth_error l (Z.to_nat i)
  else if - n <=? i then nth_error l (Z.to_nat (n + i))
  else None.

Module Qt.
Definition DisplayRole : Z := 0.
Definition EditRole : Z := 2.
Definition ItemIsSelectable : Z := 1.
Definition ItemIsEditable : Z := 2.
Definition ItemIsEnabled : Z := 32.
End Qt.

Module PathModel.

(** A [QModelIndex]; [QModelIndex()] has no model and row and column -1. *)
Record QModelIndex := mk_index { row : Z; column : Z; has_model : bool }.

Definition createIndex (r c : Z) : QModelIndex := mk_index r c true.

Definition isValid (index : QModelIndex) : bool :=
  (0 <=? row index) && (0 <=? column index) && has_model index.

(** What the methods hand back to Qt: a [QVariant], empty or holding
    a string, or a plain string. *)
Inductive PyValue := QVariant (content : option string) | PyStr (s : string).

Inductive Signal := dataChanged (topLeft bottomRight : QModelIndex).

Definition CoreData := gmap string string.

(** Lines 28 to 31. *)
Definition names : list string :=
  ["Prefix"; "Library dir"; "Binary dir"; "Include dir"; "Data dir";
   "Man dir"; "Locale dir"].

Definition attr_name : list string :=
  ["prefix"; "libdir"; "bindir"; "includedir"; "datadir"; "mandir";
   "localedir"].

(** Lines 33 to 38. *)
Definition flags (index : QModelIndex) : Z :=
  let editable := if column index =? 1 then Qt.ItemIsEditable else 0 in
  Z.lor (Z.lor Qt.ItemIsSelectable Qt.ItemIsEnabled) editable.

(** Lines 40 to 43. *)
Definition rowCount (index : QModelIndex) : Z :=
  if isValid index then 0 else Z.of_nat (length names).

(** Lines 61 to 68. *)
Definition data (coredata : CoreData) (index : QModelIndex) (role : Z)
  : Result PyValue :=
  if negb (role =? Qt.DisplayRole) then Ok (QVariant None)
  else if column index =? 0 then
    match getitem names (row index) with
    | Some n => Ok (PyStr n)
    | None => Raise IndexError
    end
  else
    match getitem attr_name (row index) with
    | Some a =>
        match coredata !! a with
        | Some v => Ok (PyStr v)
        | None => Raise (AttributeError a)
        end
    | None => Raise IndexError
    end.

(** Lines 73 to 81: the answer, the core data afterwards and the
    signals emitted. *)
Definition setData (coredata : CoreData) (index : QModelIndex)
    (value : string) (role : Z) : Result (bool * CoreData * list Signal) :=
  if negb (role =? Qt.EditRole) then Ok (false, coredata, [])
  else
    match getitem attr_name (row index) with
    | Some a =>
        Ok (true, <[a := value]> coredata,
            [dataChanged (createIndex (row index) (column index))
                         (createIndex (row index) (column index))])
    | None => Raise IndexError
    end.

End PathModel.

(** * Properties *)

Local Open Scope list_scope.

(** ** Running the monad *)

Section Runs.

Variable w : World.

Lemma bind_ok {A B} (m : M A) (k : A -> M B) s a s' :
  m s = (Ok a, s') -> bind m k s = k a s'.
Proof. unfold bind; intros ->; reflexivity. Qed.

Lemma bind_raise {A B} (m : M A) (k : A -> M B) s e s' :
  m s = (Raise e, s') -> bind m k s = (Raise e, s').
Proof. unfold bind; intros ->; reflexivity. Qed.

Lemma log_nil s : log s [] = s.
Proof. destruct s; unfold log; simpl; rewrite app_nil_r; reflexivity. Qed.

Lemma log_log s l1 l2 : log (log s l1) l2 = log s (l1 ++ l2).
Proof. unfold log; simpl; rewrite app_assoc; reflexivity. Qed.

Lemma emit_run e s : emit e s = (Ok tt, log s [e]).
Proof. reflexivity. Qed.

Lemma abspath_run path s :
  abspath w path s = (Ok (abspath_value w path), log s (abspath_events path)).
Proof.
  unfold abspath, abspath_value, abspath_events.
  destruct (posixpath.isabs path).
  - unfold ret; rewrite log_nil; reflexivity.
  - reflexivity.
Qed.

Lemma stat_call_some path r s :
  os_stat w path = Some r -> stat_call w path s = (Ok r, log s [EStat path]).
Proof. unfold stat_call, bind; simpl; intros ->; reflexivity. Qed.

Lemma stat_call_none path s :
  os_stat w path = None ->
  stat_call w path s = (Raise (OSError path), log s [EStat path]).
Proof. unfold stat_call, bind; simpl; intros ->; reflexivity. Qed.

Lemma samefile_run f1 f2 b s :
  same_entity w f1 f2 = Some b ->
  samefile w f1 f2 s = (Ok b, log s [EStat f1; EStat f2]).
Proof.
  unfold same_entity, samefile; intros H.
  destruct (os_stat w f1) as [r1|] eqn:E1; [|discriminate].
  destruct (os_stat w f2) as [r2|] eqn:E2; [|discriminate].
  injection H as <-.
  rewrite (bind_ok _ _ _ _ _ (stat_call_some _ _ _ E1)).
  rewrite (bind_ok _ _ _ _ _ (stat_call_some _ _ _ E2)).
  unfold ret; rewrite log_log; reflexivity.
Qed.

Lemma has_builder_file_run dirname s :
  has_builder_file w dirname s =
    (Ok (can_open w (posixpath.join dirname (builder_filename w))),
     log s [EOpen (posixpath.join dirname (builder_filename w))]).
Proof.
  unfold has_builder_file, try_except_IOError, open_r, bind; simpl.
  destruct (can_open w _); reflexivity.
Qed.

Lemma read_options_run s o :
  globals_options s = Some o -> read_options s = (Ok o, s).
Proof. unfold read_options; intros ->; reflexivity. Qed.

End Runs.

(** ** The resolver, path by path *)

Section Resolver.

Variable w : World.

Ltac start :=
  unfold validate_dirs;
  rewrite (bind_ok _ _ _ _ _ (abspath_run w _ _));
  rewrite (bind_ok _ _ _ _ _ (abspath_run w _ _)).

Lemma validate_dirs_first_missing dir1 dir2 s :
  os_stat w (abspath_value w dir1) = None ->
  validate_dirs w dir1 dir2 s =
    (Raise (OSError (abspath_value w dir1)),
     log s (abspath_events dir1 ++ abspath_events dir2
              ++ [EStat (abspath_value w dir1)])).
Proof.
  intros H; start.
  rewrite (bind_raise _ _ _ _ _ (stat_call_none w _ _ H)).
  rewrite !log_log; reflexivity.
Qed.

Lemma validate_dirs_first_not_dir dir1 dir2 s r :
  os_stat w (abspath_value w dir1) = Some r ->
  stat.S_ISDIR (st_mode r) = false ->
  validate_dirs w dir1 dir2 s =
    (Raise (NotADirectoryError dir1),
     log s (abspath_events dir1 ++ abspath_events dir2
              ++ [EStat (abspath_value w dir1)])).
Proof.
  intros H1 H2; start.
  rewrite (bind_ok _ _ _ _ _ (stat_call_some w _ _ _ H1)).
  rewrite H2; simpl.
  unfold bind at 1, raise; rewrite !log_log; reflexivity.
Qed.

Lemma validate_dirs_second_missing dir1 dir2 s :
  is_dir w dir1 = true ->
  os_stat w (abspath_value w dir2) = None ->
  validate_dirs w dir1 dir2 s =
    (Raise (OSError (abspath_value w dir2)),
     log s (abspath_events dir1 ++ abspath_events dir2
              ++ [EStat (abspath_value w dir1);
                  EStat (abspath_value w dir2)])).
Proof.
  unfold is_dir; intros H1 H2.
  destruct (os_stat w (abspath_value w dir1)) as [r1|] eqn:E1; [|discriminate].
  start.
  rewrite (bind_ok _ _ _ _ _ (stat_call_some w _ _ _ E1)).
  rewrite H1; simpl; unfold bind at 1, ret at 1.
  rewrite (bind_raise _ _ _ _ _ (stat_call_none w _ _ H2)).
  rewrite !log_log; reflexivity.
Qed.

Lemma validate_dirs_second_not_dir dir1 dir2 s r :
  is_dir w dir1 = true ->
  os_stat w (abspath_value w dir2) = Some r ->
  stat.S_ISDIR (st_mode r) = false ->
  validate_dirs w dir1 dir2 s =
    (Raise (NotADirectoryError dir2),
     log s (abspath_events dir1 ++ abspath_events dir2
              ++ [EStat (abspath_value w dir1);
                  EStat (abspath_value w dir2)])).
Proof.
  unfold is_dir; intros H1 H2 H3.
  destruct (os_stat w (abspath_value w dir1)) as [r1|] eqn:E1; [|discriminate].
  start.
  rewrite (bind_ok _ _ _ _ _ (stat_call_some w _ _ _ E1)).
  rewrite H1; simpl; unfold bind at 1, ret at 1.
  rewrite (bind_ok _ _ _ _ _ (stat_call_some w _ _ _ H2)).
  rewrite H3; simpl.
  unfold bind at 1, raise; rewrite !log_log; reflexivity.
Qed.

(** Past the three checks, the marker phase decides. *)
Lemma validate_dirs_checked dir1 dir2 s o b :
  is_dir w dir1 = true ->
  is_dir w dir2 = true ->
  globals_options s = Some o ->
  same_entity w dir1 dir2 = Some b ->
  validate_dirs w dir1 dir2 s =
    if b then (Raise SameDirectoryError, checked w s o dir1 dir2)
    else (marker_outcome w dir1 dir2,
          log (checked w s o dir1 dir2) (probes w dir1 dir2)).
Proof.
  unfold is_dir; intros H1 H2 Ho Hs.
  destruct (os_stat w (abspath_value w dir1)) as [r1|] eqn:E1; [|discriminate].
  destruct (os_stat w (abspath_value w dir2)) as [r2|] eqn:E2; [|discriminate].
  start.
  rewrite (bind_ok _ _ _ _ _ (stat_call_some w _ _ _ E1)).
  rewrite H1; simpl; unfold bind at 1, ret at 1.
  rewrite (bind_ok _ _ _ _ _ (stat_call_some w _ _ _ E2)).
  rewrite H2; simpl; unfold bind at 1, ret at 1.
  erewrite bind_ok by (apply read_options_run; exact Ho).
  unfold bind at 1, get_self at 1.
  unfold bind at 1, set_self at 1.
  rewrite (bind_ok _ _ _ _ _ (samefile_run w _ _ _ _ Hs)).
  destruct b; simpl.
  - unfold bind, raise, checked, log; simpl.
    rewrite <- !app_assoc; reflexivity.
  - unfold bind at 1, ret at 1.
    rewrite (bind_ok _ _ _ _ _ (has_builder_file_run w _ _)).
    unfold marker_outcome, has_marker.
    destruct (can_open w (posixpath.join (abspath_value w dir1) _)) eqn:M1;
      rewrite (bind_ok _ _ _ _ _ (has_builder_file_run w _ _));
      destruct (can_open w (posixpath.join (abspath_value w dir2) _)) eqn:M2;
      unfold raise, ret, checked, probes, marker_file, log; simpl;
      rewrite <- !app_assoc; reflexivity.
Qed.

(** Line 79 reads the global name [options]. *)
Lemma validate_dirs_unbound dir1 dir2 s :
  is_dir w dir1 = true ->
  is_dir w dir2 = true ->
  globals_options s = None ->
  fst (validate_dirs w dir1 dir2 s) = Raise (NameError "options").
Proof.
  unfold is_dir; intros H1 H2 Ho.
  destruct (os_stat w (abspath_value w dir1)) as [r1|] eqn:E1; [|discriminate].
  destruct (os_stat w (abspath_value w dir2)) as [r2|] eqn:E2; [|discriminate].
  start.
  rewrite (bind_ok _ _ _ _ _ (stat_call_some w _ _ _ E1)).
  rewrite H1; simpl; unfold bind at 1, ret at 1.
  rewrite (bind_ok _ _ _ _ _ (stat_call_some w _ _ _ E2)).
  rewrite H2; simpl; unfold bind at 1, ret at 1.
  unfold bind at 1, read_options; simpl; rewrite Ho; reflexivity.
Qed.

(** [os.path.samefile] stats the arguments as given. *)
Lemma validate_dirs_samefile_fails dir1 dir2 s o :
  is_dir w dir1 = true ->
  is_dir w dir2 = true ->
  globals_options s = Some o ->
  same_entity w dir1 dir2 = None ->
  exists path, fst (validate_dirs w dir1 dir2 s) = Raise (OSError path).
Proof.
  unfold is_dir, same_entity; intros H1 H2 Ho Hs.
  destruct (os_stat w (abspath_value w dir1)) as [r1|] eqn:E1; [|discriminate].
  destruct (os_stat w (abspath_value w dir2)) as [r2|] eqn:E2; [|discriminate].
  start.
  rewrite (bind_ok _ _ _ _ _ (stat_call_some w _ _ _ E1)).
  rewrite H1; simpl; unfold bind at 1, ret at 1.
  rewrite (bind_ok _ _ _ _ _ (stat_call_some w _ _ _ E2)).
  rewrite H2; simpl; unfold bind at 1, ret at 1.
  erewrite bind_ok by (apply read_options_run; exact Ho).
  unfold bind at 1, get_self at 1.
  unfold bind at 1, set_self at 1.
  unfold samefile.
  destruct (os_stat w dir1) as [q1|] eqn:F1.
  - destruct (os_stat w dir2) as [q2|] eqn:F2; [discriminate|].
    exists dir2.
    unfold bind at 1. unfold bind at 1.
    rewrite (stat_call_some w _ _ _ F1).
    unfold bind at 1. rewrite (stat_call_none w _ _ F2). reflexivity.
  - exists dir1.
    unfold bind at 1. unfold bind at 1.
    rewrite (stat_call_none w _ _ F1). reflexivity.
Qed.

(** A resolution that succeeds went through every check. *)
Lemma validate_dirs_ok_inv dir1 dir2 s p s' :
  validate_dirs w dir1 dir2 s = (Ok p, s') ->
  distinct_directories w dir1 dir2 /\
  (exists o, globals_options s = Some o) /\
  marker_outcome w dir1 dir2 = Ok p.
Proof.
  intros H.
  destruct (is_dir w dir1) eqn:D1.
  2:{ unfold is_dir in D1.
      destruct (os_stat w (abspath_value w dir1)) as [r1|] eqn:E1.
      - rewrite (validate_dirs_first_not_dir _ _ _ _ E1 D1) in H; discriminate.
      - rewrite (validate_dirs_first_missing _ _ _ E1) in H; discriminate. }
  destruct (is_dir w dir2) eqn:D2.
  2:{ unfold is_dir in D2.
      destruct (os_stat w (abspath_value w dir2)) as [r2|] eqn:E2.
      - rewrite (validate_dirs_second_not_dir _ _ _ _ D1 E2 D2) in H;
          discriminate.
      - rewrite (validate_dirs_second_missing _ _ _ D1 E2) in H;
          discriminate. }
  destruct (globals_options s) as [o|] eqn:Ho.
  2:{ pose proof (validate_dirs_unbound dir1 dir2 s D1 D2 Ho) as U.
      rewrite H in U; discriminate. }
  destruct (same_entity w dir1 dir2) as [b|] eqn:Hs.
  2:{ destruct (validate_dirs_samefile_fails dir1 dir2 s o D1 D2 Ho Hs)
        as [path U].
      rewrite H in U; discriminate. }
  rewrite (validate_dirs_checked dir1 dir2 s o b D1 D2 Ho Hs) in H.
  destruct b; [discriminate|].
  injection H as H _.
  repeat split; eauto.
Qed.

End Resolver.

(** ** Facts about paths and stat results *)

Lemma startswith_slash_inv s :
  Str.startswith "/" s = true -> exists s', s = String "/" s'.
Proof.
  destruct s as [|c s']; [discriminate|].
  unfold Str.startswith; cbn [String.prefix].
  destruct (ascii_dec "/" c) as [<-|]; [eauto|discriminate].
Qed.

Lemma startswith_slash_cons s : Str.startswith "/" (String "/" s) = true.
Proof.
  unfold Str.startswith; cbn [String.prefix].
  destruct (ascii_dec "/" "/"); [destruct s; reflexivity | congruence].
Qed.

Lemma normpath_isabs p :
  posixpath.isabs p = true -> posixpath.isabs (posixpath.normpath p) = true.
Proof.
  unfold posixpath.isabs. intros H.
  destruct (startswith_slash_inv p H) as [p' ->].
  unfold posixpath.normpath, posixpath.initial_slashes.
  rewrite H.
  change (String.eqb (String "/" p') "") with false. cbv iota.
  unfold posixpath.isabs.
  destruct (Str.startswith "//" (String "/" p')
            && negb (Str.startswith "///" (String "/" p')));
    cbn [Str.times String.append String.eqb];
    apply startswith_slash_cons.
Qed.

Lemma join_isabs a b :
  posixpath.isabs a = true -> posixpath.isabs (posixpath.join a b) = true.
Proof.
  intros H. unfold posixpath.join.
  destruct (Str.startswith "/" b) eqn:B; [exact B|].
  destruct (startswith_slash_inv a H) as [a' ->].
  unfold posixpath.isabs.
  destruct (String.eqb (String "/" a') "" || Str.endswith_sep (String "/" a'));
    cbn [String.append]; apply startswith_slash_cons.
Qed.

Lemma abspath_value_isabs w path :
  posixpath.isabs (getcwd w) = true ->
  posixpath.isabs (abspath_value w path) = true.
Proof.
  intros H. unfold abspath_value.
  destruct (posixpath.isabs path) eqn:P.
  - apply normpath_isabs, P.
  - apply normpath_isabs, join_isabs, H.
Qed.

Lemma samestat_sym s1 s2 : samestat s1 s2 = samestat s2 s1.
Proof. unfold samestat. rewrite (Z.eqb_sym (st_ino s1)), (Z.eqb_sym (st_dev s1)). reflexivity. Qed.

Lemma samestat_refl s1 : samestat s1 s1 = true.
Proof. unfold samestat. rewrite !Z.eqb_refl. reflexivity. Qed.

Lemma same_entity_sym w f1 f2 : same_entity w f1 f2 = same_entity w f2 f1.
Proof.
  unfold same_entity.
  destruct (os_stat w f1), (os_stat w f2); try reflexivity.
  rewrite samestat_sym; reflexivity.
Qed.

Lemma same_entity_refl w f :
  os_stat w f <> None -> same_entity w f f = Some true.
Proof.
  unfold same_entity. destruct (os_stat w f); [|congruence].
  rewrite samestat_refl; reflexivity.
Qed.

Lemma distinct_directories_sym w A B :
  distinct_directories w A B -> distinct_directories w B A.
Proof.
  unfold distinct_directories. intros (HA & HB & HS).
  rewrite same_entity_sym. auto.
Qed.

(** ** The directory role resolver *)

(** C2, as stated, fails: a path that does not exist makes [os.stat]
    raise, and [validate_dirs] lets that error through instead of
    reporting the path as not a directory. *)
Lemma validate_dirs_missing_path_counterexample :
  is_dir Example.world "nowhere" = false /\
  fst (validate_dirs Example.world "src" "nowhere"
         (Example.started default_configuration))
    = Raise (OSError "/home/u/proj/nowhere") /\
  OSError "/home/u/proj/nowhere" <> NotADirectoryError "nowhere".
Proof.
  split; [vm_compute; reflexivity|].
  split; [vm_compute; reflexivity | discriminate].
Qed.

(** C2, amended.  Let [P] be the first argument whose canonical form is
    not a directory.  [validate_dirs] then fails without opening any
    marker file, and when [P] exists the error is
    [NotADirectoryError P], with the argument as it was given. *)
Theorem validate_dirs_not_a_directory w dir1 dir2 s P :
  first_non_directory w dir1 dir2 = Some P ->
  let r := validate_dirs w dir1 dir2 s in
  (exists e, fst r = Raise e) /\
  (exists evs, trace (snd r) = trace s ++ evs /\
               Forall (fun e => is_probe e = false) evs) /\
  (exists_ w P = true -> fst r = Raise (NotADirectoryError P)).
Proof.
  intros H; cbv zeta; unfold first_non_directory in H; unfold exists_.
  assert (Hev : forall p, Forall (fun e => is_probe e = false) (abspath_events p)).
  { intros p; unfold abspath_events; destruct (posixpath.isabs p);
      repeat constructor. }
  destruct (is_dir w dir1) eqn:D1; simpl in H.
  - destruct (is_dir w dir2) eqn:D2; simpl in H; [discriminate|].
    injection H as <-. unfold is_dir in D2.
    destruct (os_stat w (abspath_value w dir2)) as [r2|] eqn:E2.
    + rewrite (validate_dirs_second_not_dir w _ _ s _ D1 E2 D2).
      split; [eexists; reflexivity|]. split; [|reflexivity].
      eexists; split; [reflexivity|].
      rewrite !Forall_app; repeat split; auto; repeat constructor.
    + rewrite (validate_dirs_second_missing w _ _ s D1 E2).
      split; [eexists; reflexivity|]. split; [|discriminate].
      eexists; split; [reflexivity|].
      rewrite !Forall_app; repeat split; auto; repeat constructor.
  - injection H as <-. unfold is_dir in D1.
    destruct (os_stat w (abspath_value w dir1)) as [r1|] eqn:E1.
    + rewrite (validate_dirs_first_not_dir w _ dir2 s _ E1 D1).
      split; [eexists; reflexivity|]. split; [|reflexivity].
      eexists; split; [reflexivity|].
      rewrite !Forall_app; repeat split; auto; repeat constructor.
    + rewrite (validate_dirs_first_missing w _ dir2 s E1).
      split; [eexists; reflexivity|]. split; [|discriminate].
      eexists; split; [reflexivity|].
      rewrite !Forall_app; repeat split; auto; repeat constructor.
Qed.

Lemma validate_dirs_not_a_directory_witness :
  fst (validate_dirs Example.world "src" "src/meson.build"
         (Example.started default_configuration))
    = Raise (NotADirectoryError "src/meson.build").
Proof.
  exact (proj2 (proj2 (validate_dirs_not_a_directory Example.world
                         "src" "src/meson.build"
                         (Example.started default_configuration)
                         "src/meson.build" eq_refl)) eq_refl).
Defined.

(** C3.  Two arguments that pass the directory tests and name two
    different entries, exactly one of which holds the marker file, once
    the script body has bound [options]: [validate_dirs] returns the
    canonical form of the one with the marker as source directory and
    that of the other as build directory, in whichever order the two
    are given. *)
Theorem validate_dirs_one_marker w A B s o :
  globals_options s = Some o ->
  distinct_directories w A B ->
  has_marker w A <> has_marker w B ->
  let src := abspath_value w (if has_marker w A then A else B) in
  let bld := abspath_value w (if has_marker w A then B else A) in
  fst (validate_dirs w A B s) = Ok (src, bld) /\
  fst (validate_dirs w B A s) = Ok (src, bld) /\
  can_open w (posixpath.join src (builder_filename w)) = true /\
  can_open w (posixpath.join bld (builder_filename w)) = false.
Proof.
  intros Ho D M; cbv zeta.
  pose proof (distinct_directories_sym _ _ _ D) as D'.
  destruct D as (DA & DB & DS), D' as (_ & _ & DS').
  rewrite (validate_dirs_checked w A B s o false DA DB Ho DS).
  rewrite (validate_dirs_checked w B A s o false DB DA Ho DS').
  unfold marker_outcome; cbn [fst].
  pose proof (eq_refl (has_marker w A)) as EA.
  pose proof (eq_refl (has_marker w B)) as EB.
  unfold has_marker at 2 in EA. unfold has_marker at 2 in EB.
  destruct (has_marker w A), (has_marker w B); try congruence; auto.
Qed.

Lemma validate_dirs_one_marker_witness :
  fst (validate_dirs Example.world "out" "src"
         (Example.started default_configuration))
    = Ok ("/home/u/proj/src", "/home/u/proj/out") /\
  fst (validate_dirs Example.world "src" "out"
         (Example.started default_configuration))
    = Ok ("/home/u/proj/src", "/home/u/proj/out").
Proof.
  assert (D : distinct_directories Example.world "out" "src")
    by (repeat split; reflexivity).
  assert (Mk : has_marker Example.world "out" <> has_marker Example.world "src")
    by (vm_compute; discriminate).
  pose proof (validate_dirs_one_marker Example.world "out" "src"
                (Example.started default_configuration)
                default_configuration eq_refl D Mk) as (H1 & H2 & _).
  split; [exact H1 | exact H2].
Defined.

(** C4.  Under the same conditions on the two arguments: with the
    marker file in both, [validate_dirs] fails with
    [AmbiguousMarkerError]; with it in neither, with
    [MissingMarkerError]; and it fails in no other way. *)
Theorem validate_dirs_marker_failures w A B s o :
  globals_options s = Some o ->
  distinct_directories w A B ->
  let r := fst (validate_dirs w A B s) in
  (has_marker w A = true -> has_marker w B = true ->
   r = Raise (AmbiguousMarkerError w)) /\
  (has_marker w A = false -> has_marker w B = false ->
   r = Raise (MissingMarkerError w)) /\
  (forall e, r = Raise e ->
     (e = AmbiguousMarkerError w /\
      has_marker w A = true /\ has_marker w B = true) \/
     (e = MissingMarkerError w /\
      has_marker w A = false /\ has_marker w B = false)).
Proof.
  intros Ho (DA & DB & DS); cbv zeta.
  rewrite (validate_dirs_checked w A B s o false DA DB Ho DS).
  unfold marker_outcome; cbn [fst].
  destruct (has_marker w A), (has_marker w B);
    (split; [|split]); try congruence; intros e He; try discriminate;
    injection He as <-; auto.
Qed.

Lemma validate_dirs_marker_failures_witness :
  fst (validate_dirs Example.world "out" "."
         (Example.started default_configuration))
    = Raise (MissingMarkerError Example.world).
Proof.
  assert (D : distinct_directories Example.world "out" ".")
    by (repeat split; reflexivity).
  exact (proj1 (proj2 (validate_dirs_marker_failures Example.world "out" "."
                         (Example.started default_configuration)
                         default_configuration eq_refl D))
           eq_refl eq_refl).
Defined.

(** C5.  An argument [A] whose canonical form passes the directory test
    and on which [os.stat] succeeds as given, and a second argument
    that is [A] itself or another spelling of the same entry (same
    inode and device): [validate_dirs] fails with [SameDirectoryError],
    after the two directory tests and the two stats of [samefile], and
    opens no marker file; the outcome is the same whatever the state of
    the marker files. *)
Theorem validate_dirs_same_directory w A B s o probe :
  globals_options s = Some o ->
  is_dir w A = true ->
  is_dir w B = true ->
  (B = A /\ os_stat w A <> None) \/ same_entity w A B = Some true ->
  let r := validate_dirs (with_markers w probe) A B s in
  fst r = Raise SameDirectoryError /\
  trace (snd r) =
    trace s ++ abspath_events A ++ abspath_events B
      ++ [EStat (abspath_value w A); EStat (abspath_value w B);
          EStat A; EStat B] /\
  Forall (fun e => is_probe e = false)
    (abspath_events A ++ abspath_events B
       ++ [EStat (abspath_value w A); EStat (abspath_value w B);
           EStat A; EStat B]).
Proof.
  intros Ho DA DB HS; cbv zeta.
  assert (HS' : same_entity w A B = Some true).
  { destruct HS as [[-> HA]|HS]; [apply same_entity_refl, HA | exact HS]. }
  rewrite (validate_dirs_checked (with_markers w probe) A B s o true DA DB Ho HS').
  split; [reflexivity|]. split; [reflexivity|].
  unfold abspath_events.
  destruct (posixpath.isabs A), (posixpath.isabs B); repeat constructor.
Qed.

Lemma validate_dirs_same_directory_witness :
  fst (validate_dirs Example.world "src" "./src/../src"
         (Example.started default_configuration))
    = Raise SameDirectoryError /\
  fst (validate_dirs Example.world "out" "out"
         (Example.started default_configuration))
    = Raise SameDirectoryError.
Proof.
  split.
  - exact (proj1 (validate_dirs_same_directory Example.world
                    "src" "./src/../src"
                    (Example.started default_configuration)
                    default_configuration (can_open Example.world)
                    eq_refl eq_refl eq_refl (or_intror eq_refl))).
  - assert (H : os_stat Example.world "out" <> None) by discriminate.
    exact (proj1 (validate_dirs_same_directory Example.world "out" "out"
                    (Example.started default_configuration)
                    default_configuration (can_open Example.world)
                    eq_refl eq_refl eq_refl (or_introl (conj eq_refl H)))).
Defined.

(** C10.  Where the current directory is an absolute path: whenever
    [validate_dirs] succeeds, the pair it returns is made of the
    canonical forms of its two arguments, in one order or the other;
    both are absolute, and the source directory is not the build
    directory. *)
Theorem validate_dirs_returns_canonical_inputs w dir1 dir2 s src bld s' :
  posixpath.isabs (getcwd w) = true ->
  validate_dirs w dir1 dir2 s = (Ok (src, bld), s') ->
  ((src = abspath_value w dir1 /\ bld = abspath_value w dir2) \/
   (src = abspath_value w dir2 /\ bld = abspath_value w dir1)) /\
  posixpath.isabs src = true /\
  posixpath.isabs bld = true /\
  src <> bld.
Proof.
  intros Hcwd H.
  destruct (validate_dirs_ok_inv w _ _ _ _ _ H) as (_ & _ & Hm).
  unfold marker_outcome in Hm.
  pose proof (abspath_value_isabs w dir1 Hcwd) as A1.
  pose proof (abspath_value_isabs w dir2 Hcwd) as A2.
  destruct (has_marker w dir1) eqn:M1, (has_marker w dir2) eqn:M2;
    try discriminate; injection Hm as <- <-;
    (split; [auto|]); (split; [assumption|]); (split; [assumption|]);
    intros E; unfold has_marker in M1, M2; rewrite E in *; congruence.
Qed.

Lemma validate_dirs_returns_canonical_inputs_witness :
  posixpath.isabs "/home/u/proj/src" = true /\
  posixpath.isabs "/home/u/proj/out" = true /\
  "/home/u/proj/src" <> "/home/u/proj/out".
Proof.
  exact (proj2 (validate_dirs_returns_canonical_inputs Example.world
                  "out" "src" (Example.started default_configuration)
                  "/home/u/proj/src" "/home/u/proj/out" _
                  eq_refl eq_refl)).
Defined.

(** ** The constructor *)

Section Constructor.

Variable w : World.

Lemma init_raise dir1 dir2 script opts s e s' :
  validate_dirs w dir1 dir2 (fresh s) = (Raise e, s') ->
  __init__ w dir1 dir2 script opts s = (Raise e, s').
Proof.
  intros H. unfold __init__.
  unfold bind at 1, set_self at 1.
  apply bind_raise. exact H.
Qed.

Lemma init_relative_prefix dir1 dir2 script opts s p s' c rest :
  validate_dirs w dir1 dir2 (fresh s) = (Ok p, s') ->
  opts !! "prefix" = Some (VStr (String c rest)) ->
  c <> "/"%char ->
  __init__ w dir1 dir2 script opts s
    = (Raise InvalidPrefixError, resolved s' p).
Proof.
  intros H Hp Hc. unfold __init__.
  unfold bind at 1, set_self at 1.
  rewrite (bind_ok _ _ _ _ _ H).
  unfold bind at 1, get_self at 1.
  unfold bind at 1, set_self at 1.
  unfold bind at 1, prefix_is_relative. rewrite Hp.
  apply Ascii.eqb_neq in Hc. rewrite Hc. reflexivity.
Qed.

Lemma init_absolute_prefix dir1 dir2 script opts s p s' rest :
  validate_dirs w dir1 dir2 (fresh s) = (Ok p, s') ->
  opts !! "prefix" = Some (VStr (String "/" rest)) ->
  __init__ w dir1 dir2 script opts s
    = (Ok tt, constructed s' p script opts).
Proof.
  intros H Hp. unfold __init__.
  unfold bind at 1, set_self at 1.
  rewrite (bind_ok _ _ _ _ _ H).
  unfold bind at 1, get_self at 1.
  unfold bind at 1, set_self at 1.
  unfold bind at 1, prefix_is_relative. rewrite Hp.
  reflexivity.
Qed.

End Constructor.

(** C1, as stated, fails: the constructor resolves the directories
    first.  With a relative prefix and a second argument that is a
    file, the error is the directory error; with two good directories
    the prefix error comes after eight system calls. *)
Lemma init_prefix_counterexample :
  Example.relative_prefix !! "prefix" = Some (VStr "relative/path") /\
  fst (__init__ Example.world "src" "src/meson.build" "/home/u/proj/meson.py"
         Example.relative_prefix (Example.started Example.relative_prefix))
    = Raise (NotADirectoryError "src/meson.build") /\
  NotADirectoryError "src/meson.build" <> InvalidPrefixError /\
  __init__ Example.world "src" "out" "/home/u/proj/meson.py"
    Example.relative_prefix (Example.started Example.relative_prefix)
  = (Raise InvalidPrefixError,
     mk_State (Some Example.relative_prefix)
       (mk_BuilderApp (Some "/home/u/proj/src") (Some "/home/u/proj/out")
          None (Some Example.relative_prefix))
       [EGetcwd; EGetcwd; EStat "/home/u/proj/src"; EStat "/home/u/proj/out";
        EStat "src"; EStat "out"; EOpen "/home/u/proj/src/meson.build";
        EOpen "/home/u/proj/out/meson.build"]).
Proof.
  split; [vm_compute; reflexivity|].
  split; [vm_compute; reflexivity|].
  split; [discriminate|].
  vm_compute; reflexivity.
Qed.

(** C1, amended.  With a prefix that is a non-empty string not starting
    with a slash, the constructor fails, and the prefix test comes
    after [validate_dirs]: the trace is that of [validate_dirs]; an
    error of [validate_dirs] is the error raised, and only when
    [validate_dirs] succeeds is it [InvalidPrefixError]. *)
Theorem init_checks_prefix_after_directories
    w dir1 dir2 script opts s c rest :
  opts !! "prefix" = Some (VStr (String c rest)) ->
  c <> "/"%char ->
  let r := __init__ w dir1 dir2 script opts s in
  let v := validate_dirs w dir1 dir2 (fresh s) in
  trace (snd r) = trace (snd v) /\
  match fst v with
  | Ok _ => fst r = Raise InvalidPrefixError
  | Raise e => fst r = Raise e
  end.
Proof.
  intros Hp Hc; cbv zeta.
  destruct (validate_dirs w dir1 dir2 (fresh s)) as [[p|e] s'] eqn:V.
  - rewrite (init_relative_prefix w _ _ script opts s p s' c rest V Hp Hc).
    split; reflexivity.
  - rewrite (init_raise w _ _ script opts s e s' V).
    split; reflexivity.
Qed.

Lemma init_checks_prefix_after_directories_witness :
  fst (__init__ Example.world "src" "out" "/home/u/proj/meson.py"
         Example.relative_prefix (Example.started Example.relative_prefix))
    = Raise InvalidPrefixError.
Proof.
  assert (Hc : "r"%char <> "/"%char) by discriminate.
  exact (proj2 (init_checks_prefix_after_directories Example.world
                  "src" "out" "/home/u/proj/meson.py"
                  Example.relative_prefix
                  (Example.started Example.relative_prefix)
                  "r"%char "elative/path" eq_refl Hc)).
Defined.

(** ** The option table *)

Lemma get_default_values_run s :
  optparse.get_default_values parser s = (Ok default_configuration, s).
Proof.
  unfold optparse.get_default_values.
  replace (forallb _ parser) with true by (vm_compute; reflexivity).
  replace (optparse.defaults parser) with default_configuration
    by (vm_compute; reflexivity).
  reflexivity.
Qed.

Lemma not_option_inv a :
  Str.startswith "-" a = false ->
  String.eqb a "--" = false /\ Str.startswith "--" a = false.
Proof.
  destruct a as [|c a']; [intros _; split; reflexivity|].
  unfold Str.startswith; cbn [String.prefix String.eqb].
  destruct (ascii_dec "-" c) as [<-|N].
  - destruct a'; discriminate.
  - intros _. split; [|reflexivity].
    destruct (Ascii.eqb c "-") eqn:E; [|reflexivity].
    apply Ascii.eqb_eq in E; congruence.
Qed.

(** Arguments that are not options are kept, in order. *)
Lemma process_args_positional argv largs values s :
  no_options argv = true ->
  optparse._process_args parser version argv largs values s
    = (Ok (values, largs ++ argv), s).
Proof.
  revert largs. induction argv as [|a argv IH]; intros largs H.
  - rewrite app_nil_r; reflexivity.
  - unfold no_options in H; cbn [forallb] in H.
    apply andb_prop in H as [Ha H].
    apply negb_true_iff in Ha.
    destruct (not_option_inv a Ha) as [E1 E2].
    cbn [optparse._process_args].
    rewrite E1, E2, Ha. cbn [andb].
    rewrite (IH (largs ++ [a]) H), <- app_assoc. reflexivity.
Qed.

(** C6.  With no option on the command line, [parse_args] leaves every
    option at its default: prefix [/usr/local], libdir [lib], bindir
    [bin], includedir [include], datadir [share], mandir [share/man],
    generator [ninja], buildtype [debug], strip false, coverage false,
    and nothing else. *)
Theorem parse_args_defaults argv s :
  no_options argv = true ->
  optparse.parse_args parser version argv s
    = (Ok (default_configuration, argv), s) /\
  optparse.defaults parser = default_configuration /\
  map_to_list default_configuration ≡ₚ
    [ ("prefix", VStr "/usr/local"); ("libdir", VStr "lib");
      ("bindir", VStr "bin"); ("includedir", VStr "include");
      ("datadir", VStr "share"); ("mandir", VStr "share/man");
      ("generator", VStr "ninja"); ("buildtype", VStr "debug");
      ("strip", VBool false); ("coverage", VBool false) ].
Proof.
  intros H. split; [|split].
  - unfold optparse.parse_args.
    rewrite (bind_ok _ _ _ _ _ (get_default_values_run s)).
    apply (process_args_positional argv [] default_configuration s H).
  - vm_compute; reflexivity.
  - unfold default_configuration.
    apply map_to_list_to_map.
    apply (bool_decide_unpack _); vm_compute; exact I.
Qed.

Lemma parse_args_defaults_witness :
  optparse.parse_args parser version ["meson.py"; "src"; "out"] initial_state
    = (Ok (default_configuration, ["meson.py"; "src"; "out"]), initial_state).
Proof.
  exact (proj1 (parse_args_defaults ["meson.py"; "src"; "out"] initial_state
                  eq_refl)).
Defined.

(** ** The orchestrator *)

Section Orchestrator.

Variable w : World.

Lemma call_ok e s :
  collaborator w e = None -> call w e s = (Ok tt, log s [e]).
Proof. unfold call, bind; simpl; intros ->; reflexivity. Qed.

Lemma call_raise e x s :
  collaborator w e = Some x -> call w e s = (Raise x, log s [e]).
Proof. unfold call, bind; simpl; intros ->; reflexivity. Qed.

Lemma self_attr_run {A} name (f : BuilderApp -> option A) a s :
  f (self s) = Some a -> self_attr name f s = (Ok a, s).
Proof. unfold self_attr, bind, get_self; intros ->; reflexivity. Qed.

(** The name is looked up and nothing else happens. *)
Lemma select_generator_pure opts s : snd (select_generator opts s) = s.
Proof.
  unfold select_generator.
  destruct (opts !! "generator") as [[name|[]]|]; try reflexivity.
  destruct (String.eqb name "shell"); [reflexivity|].
  destruct (String.eqb name "ninja"); reflexivity.
Qed.

(** After three good stages [generate] is at line 95. *)
Lemma generate_interpreted s src bld script o :
  ready s src bld script o ->
  interprets w src bld script o ->
  generate w s =
    (g <- select_generator o ;;
     call w (EGeneratorNew g) ;;
     call w (EGenerate g))
      (log s [EEnvironment src bld script o; EBuild; EInterpreter;
              EInterpreterRun]).
Proof.
  intros (Hs & Hb & Hf & Ho) (C1 & C2 & C3 & C4).
  unfold generate.
  rewrite (bind_ok _ _ _ _ _ (self_attr_run _ _ _ _ Hs)).
  rewrite (bind_ok _ _ _ _ _ (self_attr_run _ _ _ _ Hb)).
  rewrite (bind_ok _ _ _ _ _ (self_attr_run _ _ _ _ Hf)).
  rewrite (bind_ok _ _ _ _ _ (read_options_run _ _ Ho)).
  rewrite (bind_ok _ _ _ _ _ (call_ok _ _ C1)).
  rewrite (bind_ok _ _ _ _ _ (call_ok _ _ C2)).
  rewrite (bind_ok _ _ _ _ _ (call_ok _ _ C3)).
  rewrite (bind_ok _ _ _ _ _ (call_ok _ _ C4)).
  erewrite bind_ok by (apply read_options_run; exact Ho).
  rewrite !log_log. reflexivity.
Qed.

End Orchestrator.

(** C7.  Once the first three stages have run, [generate] looks the
    generator name up among two: [shell] goes on to build and run the
    shell generator, [ninja] the ninja generator, and any other name
    fails with [UnknownGeneratorError] carrying that name; the lookup
    itself causes no event and leaves the state as it is. *)
Theorem generate_selects_generator w s src bld script o name :
  ready s src bld script o ->
  interprets w src bld script o ->
  o !! "generator" = Some (VStr name) ->
  let s4 := log s [EEnvironment src bld script o; EBuild; EInterpreter;
                   EInterpreterRun] in
  let run g := (call w (EGeneratorNew g) ;; call w (EGenerate g)) s4 in
  (name = "shell" -> generate w s = run ShellGenerator) /\
  (name = "ninja" -> generate w s = run NinjaGenerator) /\
  (name <> "shell" -> name <> "ninja" ->
   generate w s = (Raise (UnknownGeneratorError name), s4)) /\
  (forall s', snd (select_generator o s') = s').
Proof.
  intros R I G; cbv zeta.
  rewrite (generate_interpreted w s src bld script o R I).
  split; [|split; [|split; [|intros s'; apply select_generator_pure]]];
    unfold bind at 1, select_generator; rewrite G.
  - intros ->. reflexivity.
  - intros ->. reflexivity.
  - intros N1 N2.
    apply String.eqb_neq in N1, N2. rewrite N1, N2. reflexivity.
Qed.

Lemma generate_selects_generator_witness :
  generate Example.world (Example.built Example.bogus_generator)
  = (Raise (UnknownGeneratorError "bogus"),
     log (Example.built Example.bogus_generator)
       [EEnvironment "/home/u/proj/src" "/home/u/proj/out"
          "/home/u/proj/meson.py" Example.bogus_generator;
        EBuild; EInterpreter; EInterpreterRun]).
Proof.
  assert (R : ready (Example.built Example.bogus_generator)
                "/home/u/proj/src" "/home/u/proj/out" "/home/u/proj/meson.py"
                Example.bogus_generator)
    by (repeat split; reflexivity).
  assert (I : interprets Example.world
                "/home/u/proj/src" "/home/u/proj/out" "/home/u/proj/meson.py"
                Example.bogus_generator)
    by (repeat split; reflexivity).
  assert (N1 : "bogus" <> "shell") by discriminate.
  assert (N2 : "bogus" <> "ninja") by discriminate.
  exact (proj1 (proj2 (proj2 (generate_selects_generator Example.world
                                (Example.built Example.bogus_generator)
                                _ _ _ _ "bogus" R I eq_refl)))
           N1 N2).
Defined.

(** ** Which events a computation can cause *)

Section Emits.

Variable P : Event -> Prop.

Lemma emits_ret {A} (a : A) : emits P (ret a).
Proof. intros s; exists []; rewrite app_nil_r; auto. Qed.

Lemma emits_raise {A} e : emits P (@raise A e).
Proof. intros s; exists []; rewrite app_nil_r; auto. Qed.

Lemma emits_emit e : P e -> emits P (emit e).
Proof. intros H s; exists [e]; auto. Qed.

Lemma emits_bind {A B} (m : M A) (k : A -> M B) :
  emits P m -> (forall a, emits P (k a)) -> emits P (bind m k).
Proof.
  intros Hm Hk s. unfold bind.
  destruct (Hm s) as (evs1 & E1 & F1).
  destruct (m s) as [[a|e] s1]; cbn [snd] in *.
  - destruct (Hk a s1) as (evs2 & E2 & F2).
    exists (evs1 ++ evs2). rewrite E2, E1, app_assoc.
    split; [reflexivity | apply Forall_app; auto].
  - exists evs1; auto.
Qed.

Lemma emits_try {A} (m h : M A) :
  emits P m -> emits P h -> emits P (try_except_IOError m h).
Proof.
  intros Hm Hh s. unfold try_except_IOError.
  destruct (Hm s) as (evs1 & E1 & F1).
  destruct (m s) as [[a|e] s1]; cbn [snd] in *; [exists evs1; auto|].
  destruct e; try (exists evs1; auto; fail).
  destruct (Hh s1) as (evs2 & E2 & F2).
  exists (evs1 ++ evs2). rewrite E2, E1, app_assoc.
  split; [reflexivity | apply Forall_app; auto].
Qed.

Lemma emits_get_self : emits P get_self.
Proof. intros s; exists []; rewrite app_nil_r; auto. Qed.

Lemma emits_set_self b : emits P (set_self b).
Proof. intros s; exists []; simpl; rewrite app_nil_r; auto. Qed.

Lemma emits_read_options : emits P read_options.
Proof.
  intros s; exists []; unfold read_options.
  destruct (globals_options s); rewrite app_nil_r; auto.
Qed.

End Emits.

Create HintDb emits.

#[local] Hint Resolve emits_ret emits_raise emits_get_self emits_set_self
  emits_read_options : emits.

Ltac emits_step :=
  first
    [ apply emits_bind; [|intros ?]
    | apply emits_try
    | apply emits_emit; reflexivity
    | solve [auto with emits]
    | match goal with
      | |- emits _ (if ?b then _ else _) => destruct b
      | |- emits _ (match ?x with _ => _ end) => destruct x
      end ].

Section FilesystemOnly.

Variable w : World.

Lemma abspath_emits path : emits fs_event (abspath w path).
Proof. unfold abspath, os_getcwd; repeat emits_step. Qed.

Lemma stat_call_emits path : emits fs_event (stat_call w path).
Proof. unfold stat_call; repeat emits_step. Qed.

Lemma has_builder_file_emits dirname : emits fs_event (has_builder_file w dirname).
Proof. unfold has_builder_file, open_r; repeat emits_step. Qed.

Lemma validate_dirs_emits dir1 dir2 : emits fs_event (validate_dirs w dir1 dir2).
Proof.
  unfold validate_dirs, samefile.
  repeat first [ apply abspath_emits | apply stat_call_emits
               | apply has_builder_file_emits | emits_step ].
Qed.

Lemma init_emits dir1 dir2 script opts :
  emits fs_event (__init__ w dir1 dir2 script opts).
Proof.
  unfold __init__, prefix_is_relative.
  repeat first [ apply validate_dirs_emits | emits_step ].
Qed.

End FilesystemOnly.

Lemma fs_event_not_collaborator evs :
  Forall fs_event evs -> Forall (fun e => is_collaborator e = false) evs.
Proof.
  apply Forall_impl. intros e; unfold fs_event; destruct e; simpl; congruence.
Qed.

Section Startup.

Variable w : World.

Lemma startup_init_raise dir1 dir2 opts s e s' :
  __init__ w dir1 dir2 (abspath_value w (file__ w)) opts
    (log s (abspath_events (file__ w))) = (Raise e, s') ->
  startup w dir1 dir2 opts s = (Raise e, s').
Proof.
  intros H. unfold startup.
  rewrite (bind_ok _ _ _ _ _ (abspath_run w _ _)).
  apply bind_raise, H.
Qed.

Lemma startup_init_ok dir1 dir2 opts s s' src bld :
  __init__ w dir1 dir2 (abspath_value w (file__ w)) opts
    (log s (abspath_events (file__ w))) = (Ok tt, s') ->
  source_dir (self s') = Some src ->
  build_dir (self s') = Some bld ->
  startup w dir1 dir2 opts s
    = generate w (log s' [EPrint ("Source dir: " ++ src)%string;
                          EPrint ("Build dir: " ++ bld)%string]).
Proof.
  intros H Hs Hb. unfold startup.
  rewrite (bind_ok _ _ _ _ _ (abspath_run w _ _)).
  rewrite (bind_ok _ _ _ _ _ H).
  rewrite (bind_ok _ _ _ _ _ (self_attr_run _ _ _ _ Hs)).
  rewrite (bind_ok _ _ _ _ _ (emit_run _ _)).
  erewrite bind_ok by (apply self_attr_run; exact Hb).
  rewrite (bind_ok _ _ _ _ _ (emit_run _ _)).
  rewrite log_log. reflexivity.
Qed.

End Startup.

Ltac close_generate_case :=
  eexists; split;
  [ first [ symmetry; apply app_nil_r
          | rewrite <- ?app_assoc; reflexivity ] | ];
  (split; [unshelve (do 6 eexists; reflexivity);
           first [exact EmptyString | exact ∅ | exact ShellGenerator]|]);
  (split; [simpl; repeat split; assumption|]);
  (split; [first [discriminate
                 | intros _; do 5 eexists; reflexivity]|]);
  intros ? ?; first [congruence | split; simpl; intuition discriminate].

(** The calls of [generate]: a beginning of the six stages, each
    made only after the one before it returned. *)
Lemma generate_events w s :
  exists evs,
    trace (snd (generate w s)) = trace s ++ evs /\
    (exists src bld script o g rest,
        stages src bld script o g = evs ++ rest) /\
    gated w evs /\
    (fst (generate w s) = Ok tt ->
     exists src bld script o g, evs = stages src bld script o g) /\
    (collaborator w EInterpreterRun <> None ->
     forall g, ~ In (EGeneratorNew g) evs /\ ~ In (EGenerate g) evs).
Proof.
  unfold generate, self_attr, read_options, select_generator, call,
    bind, get_self, emit, ret, raise; simpl.
  destruct (source_dir (self s)) as [src|]; simpl;
    [|close_generate_case].
  destruct (build_dir (self s)) as [bld|]; simpl;
    [|close_generate_case].
  destruct (builder_script_file (self s)) as [script|]; simpl;
    [|close_generate_case].
  destruct (globals_options s) as [o|] eqn:Ho; simpl;
    [|close_generate_case].
  destruct (collaborator w (EEnvironment src bld script o)) eqn:C1; simpl;
    [close_generate_case|].
  destruct (collaborator w EBuild) eqn:C2; simpl; [close_generate_case|].
  destruct (collaborator w EInterpreter) eqn:C3; simpl;
    [close_generate_case|].
  destruct (collaborator w EInterpreterRun) eqn:C4; simpl;
    [close_generate_case|].
  rewrite Ho; simpl.
  destruct (o !! "generator") as [[name|b]|]; simpl;
    [| close_generate_case | close_generate_case].
  destruct (String.eqb name "shell"); simpl;
    [| destruct (String.eqb name "ninja"); simpl; [|close_generate_case]];
    match goal with
    | |- context [collaborator w (EGeneratorNew ?g)] =>
        destruct (collaborator w (EGeneratorNew g)) eqn:C5; simpl;
        [close_generate_case|];
        destruct (collaborator w (EGenerate g)) eqn:C6; simpl;
        close_generate_case
    end.
Qed.

Section Construction.

Variable w : World.

(** A constructor that returns went through [validate_dirs]. *)
Lemma init_ok_inv dir1 dir2 script opts s s' :
  __init__ w dir1 dir2 script opts s = (Ok tt, s') ->
  exists p sv,
    validate_dirs w dir1 dir2 (fresh s) = (Ok p, sv) /\
    s' = constructed sv p script opts.
Proof.
  intros H.
  destruct (validate_dirs w dir1 dir2 (fresh s)) as [[p|e] sv] eqn:V.
  2:{ rewrite (init_raise w _ _ script opts s e sv V) in H; discriminate. }
  exists p, sv. split; [reflexivity|].
  destruct (opts !! "prefix") as [[[|c rest]|b]|] eqn:Hp.
  - unfold __init__ in H.
    unfold bind at 1, set_self at 1 in H.
    rewrite (bind_ok _ _ _ _ _ V) in H.
    unfold bind at 1, get_self at 1 in H.
    unfold bind at 1, set_self at 1 in H.
    unfold bind at 1, prefix_is_relative in H. rewrite Hp in H.
    discriminate.
  - destruct (Ascii.eqb c "/") eqn:Ec.
    + apply Ascii.eqb_eq in Ec; subst c.
      rewrite (init_absolute_prefix w _ _ script opts s p sv rest V Hp) in H.
      congruence.
    + apply Ascii.eqb_neq in Ec.
      rewrite (init_relative_prefix w _ _ script opts s p sv c rest V Hp Ec)
        in H.
      discriminate.
  - unfold __init__ in H.
    unfold bind at 1, set_self at 1 in H.
    rewrite (bind_ok _ _ _ _ _ V) in H.
    unfold bind at 1, get_self at 1 in H.
    unfold bind at 1, set_self at 1 in H.
    unfold bind at 1, prefix_is_relative in H. rewrite Hp in H.
    discriminate.
  - unfold __init__ in H.
    unfold bind at 1, set_self at 1 in H.
    rewrite (bind_ok _ _ _ _ _ V) in H.
    unfold bind at 1, get_self at 1 in H.
    unfold bind at 1, set_self at 1 in H.
    unfold bind at 1, prefix_is_relative in H. rewrite Hp in H.
    discriminate.
Qed.

End Construction.

Section Stages.

Variable w : World.

Lemma call_run e s :
  call w e s
  = (match collaborator w e with Some x => Raise x | None => Ok tt end,
     log s [e]).
Proof. unfold call, bind; simpl. destruct (collaborator w e); reflexivity. Qed.

(** A sequence of calls run one after the other, then [k]. *)
Lemma calls_run {A} (k : M A) calls : forall s,
  fold_right (fun e m => call w e ;; m) k calls s
  = match first_failure w calls with
    | Some x => (Raise x, log s (attempted w calls))
    | None => k (log s (attempted w calls))
    end.
Proof.
  induction calls as [|e rest IH]; intros s.
  - cbn. rewrite log_nil. reflexivity.
  - cbn [fold_right attempted first_failure].
    unfold bind at 1. rewrite call_run.
    destruct (collaborator w e) as [x|]; [reflexivity|].
    rewrite IH, !log_log. reflexivity.
Qed.

(** An object that is built: [generate] is its six calls. *)
Lemma generate_ready s src bld script o :
  ready s src bld script o ->
  generate w s
  = fold_right (fun e m => call w e ;; m)
      (o' <- read_options ;;
       g <- select_generator o' ;;
       call w (EGeneratorNew g) ;;
       call w (EGenerate g))
      (first_stages src bld script o) s.
Proof.
  intros (Hs & Hb & Hf & Ho). unfold generate.
  rewrite (bind_ok _ _ _ _ _ (self_attr_run _ _ _ _ Hs)).
  rewrite (bind_ok _ _ _ _ _ (self_attr_run _ _ _ _ Hb)).
  rewrite (bind_ok _ _ _ _ _ (self_attr_run _ _ _ _ Hf)).
  rewrite (bind_ok _ _ _ _ _ (read_options_run _ _ Ho)).
  reflexivity.
Qed.

(** The constructor leaves the module-level [options] alone. *)
Lemma init_keeps_globals dir1 dir2 script opts s s' :
  __init__ w dir1 dir2 script opts s = (Ok tt, s') ->
  globals_options s' = globals_options s.
Proof.
  intros H.
  destruct (init_ok_inv w _ _ _ _ _ _ H) as (p & sv & V & ->).
  destruct (validate_dirs_ok_inv w _ _ _ _ _ V)
    as ((D1 & D2 & DS) & (o & Ho) & _).
  rewrite (validate_dirs_checked w dir1 dir2 (fresh s) o false D1 D2 Ho DS)
    in V.
  injection V as _ <-. reflexivity.
Qed.

End Stages.

(** C9.  On an object that is built, with [options] bound and a
    generator name in it, [generate] makes its calls in this order:
    environment (with the source directory, the build directory, the
    script file and the options), build graph, interpreter,
    interpreter run, then the generator the name selects and its
    generation.  Each call is made, and is made only, once every call
    before it has returned; the first call that raises ends the run
    with its error, and when all return [generate] returns; with a name
    that selects no generator the run ends after the interpreter, with
    [UnknownGeneratorError].  From any state at all, the calls of
    [generate] are a beginning of that sequence, and when the
    interpreter fails no generator is built or run.  [generate] itself
    starts only once the
    constructor has returned, on the object it built and after the two
    lines are printed: when the constructor fails, as it does when
    directory resolution fails, the script stops with that error and
    no collaborator has been called. *)
Theorem stages_run_in_order w s src bld script o name :
  ready s src bld script o ->
  o !! "generator" = Some (VStr name) ->
  generate w s =
    match selected_generator name with
    | Some g =>
        (match first_failure w (stages src bld script o g) with
         | Some x => Raise x
         | None => Ok tt
         end,
         log s (attempted w (stages src bld script o g)))
    | None =>
        (match first_failure w (first_stages src bld script o) with
         | Some x => Raise x
         | None => Raise (UnknownGeneratorError name)
         end,
         log s (attempted w (first_stages src bld script o)))
    end /\
  (forall s0, exists evs,
     trace (snd (generate w s0)) = trace s0 ++ evs /\
     (exists src0 bld0 script0 o0 g rest,
         stages src0 bld0 script0 o0 g = evs ++ rest) /\
     gated w evs /\
     (fst (generate w s0) = Ok tt ->
      exists src0 bld0 script0 o0 g, evs = stages src0 bld0 script0 o0 g) /\
     (collaborator w EInterpreterRun <> None ->
      forall g, ~ In (EGeneratorNew g) evs /\ ~ In (EGenerate g) evs)) /\
  (forall dir1 dir2 opts s0 e s',
     __init__ w dir1 dir2 (abspath_value w (file__ w)) opts
       (log s0 (abspath_events (file__ w))) = (Raise e, s') ->
     startup w dir1 dir2 opts s0 = (Raise e, s') /\
     exists evs, trace s' = trace s0 ++ evs /\
                 Forall (fun ev => is_collaborator ev = false) evs) /\
  (forall dir1 dir2 opts s0 s',
     __init__ w dir1 dir2 (abspath_value w (file__ w)) opts
       (log s0 (abspath_events (file__ w))) = (Ok tt, s') ->
     exists src' bld',
       startup w dir1 dir2 opts s0
       = generate w (log s' [EPrint ("Source dir: " ++ src')%string;
                             EPrint ("Build dir: " ++ bld')%string]) /\
       (forall o', globals_options s0 = Some o' ->
          ready (log s' [EPrint ("Source dir: " ++ src')%string;
                         EPrint ("Build dir: " ++ bld')%string])
            src' bld' (abspath_value w (file__ w)) o') /\
       Forall (fun ev => is_collaborator ev = false)
         (drop (length (trace s0)) (trace s'))).
Proof.
  intros R G.
  split; [|split; [|split]].
  - rewrite (generate_ready w s src bld script o R), calls_run.
    destruct R as (_ & _ & _ & Ho).
    unfold stages, first_stages. cbn [first_failure attempted].
    destruct (collaborator w (EEnvironment src bld script o)) as [x|];
      [destruct (selected_generator name); reflexivity|].
    destruct (collaborator w EBuild) as [x|];
      [destruct (selected_generator name); reflexivity|].
    destruct (collaborator w EInterpreter) as [x|];
      [destruct (selected_generator name); reflexivity|].
    destruct (collaborator w EInterpreterRun) as [x|];
      [destruct (selected_generator name); reflexivity|].
    erewrite bind_ok by (apply read_options_run; exact Ho).
    unfold bind at 1, select_generator, selected_generator. rewrite G.
    destruct (String.eqb name "shell");
      [|destruct (String.eqb name "ninja"); [|reflexivity]];
      cbv [ret]; unfold bind; rewrite call_run;
      match goal with
      | |- context [collaborator w (EGeneratorNew ?g)] =>
          destruct (collaborator w (EGeneratorNew g)) as [x|];
          [rewrite log_log; reflexivity|];
          rewrite call_run;
          destruct (collaborator w (EGenerate g)) as [x|];
          rewrite !log_log; reflexivity
      end.
  - exact (generate_events w).
  - intros dir1 dir2 opts s0 e s' H.
    split; [exact (startup_init_raise w _ _ _ _ _ _ H)|].
    destruct (init_emits w dir1 dir2 (abspath_value w (file__ w)) opts
                (log s0 (abspath_events (file__ w)))) as (evs & E & F).
    rewrite H in E; cbn [snd log trace] in E.
    exists (abspath_events (file__ w) ++ evs).
    rewrite E, app_assoc. split; [reflexivity|].
    apply fs_event_not_collaborator, Forall_app. split; [|exact F].
    unfold abspath_events; destruct (posixpath.isabs _); repeat constructor.
  - intros dir1 dir2 opts s0 s' H.
    pose proof (init_keeps_globals w _ _ _ _ _ _ H) as K.
    destruct (init_ok_inv w _ _ _ _ _ _ H) as (p & sv & V & ->).
    exists (fst p), (snd p).
    split; [exact (startup_init_ok w _ _ _ _ _ _ _ H eq_refl eq_refl)|].
    split.
    + intros o' Ho'. repeat split. cbn [log globals_options] in K |- *.
      rewrite <- Ho'. exact K.
    + destruct (init_emits w dir1 dir2 (abspath_value w (file__ w)) opts
                  (log s0 (abspath_events (file__ w)))) as (evs & E & F).
      rewrite H in E; cbn [snd log trace] in E.
      rewrite E, <- app_assoc, drop_app_length.
      apply fs_event_not_collaborator, Forall_app. split; [|exact F].
      unfold abspath_events; destruct (posixpath.isabs _); repeat constructor.
Qed.

Lemma stages_run_in_order_witness :
  generate Example.world (Example.built default_configuration)
  = (Ok tt,
     log (Example.built default_configuration)
       (stages "/home/u/proj/src" "/home/u/proj/out" "/home/u/proj/meson.py"
          default_configuration NinjaGenerator)) /\
  generate Example.world_bad_project (Example.built default_configuration)
  = (Raise (CollaboratorError "interpreter"),
     log (Example.built default_configuration)
       (first_stages "/home/u/proj/src" "/home/u/proj/out"
          "/home/u/proj/meson.py" default_configuration)) /\
  startup Example.world "out" "." default_configuration
    (Example.started default_configuration)
  = (Raise (MissingMarkerError Example.world),
     mk_State (Some default_configuration)
       (mk_BuilderApp None None None (Some default_configuration))
       [EGetcwd; EGetcwd; EGetcwd; EStat "/home/u/proj/out";
        EStat "/home/u/proj"; EStat "out"; EStat ".";
        EOpen "/home/u/proj/out/meson.build";
        EOpen "/home/u/proj/meson.build"]).
Proof.
  assert (R : ready (Example.built default_configuration)
                "/home/u/proj/src" "/home/u/proj/out" "/home/u/proj/meson.py"
                default_configuration)
    by (repeat split; reflexivity).
  split; [|split].
  - exact (proj1 (stages_run_in_order Example.world
                    (Example.built default_configuration)
                    _ _ _ _ "ninja" R eq_refl)).
  - exact (proj1 (stages_run_in_order Example.world_bad_project
                    (Example.built default_configuration)
                    _ _ _ _ "ninja" R eq_refl)).
  - exact (proj1 (proj1 (proj2 (proj2 (stages_run_in_order Example.world
                                         (Example.built default_configuration)
                                         _ _ _ _ "ninja" R eq_refl)))
                    "out" "." default_configuration
                    (Example.started default_configuration) _ _ eq_refl)).
Defined.

(** ** The command line *)

Lemma parse_args_nil s :
  optparse.parse_args parser version [] s = (Ok (default_configuration, []), s).
Proof.
  unfold optparse.parse_args.
  rewrite (bind_ok _ _ _ _ _ (get_default_values_run s)). reflexivity.
Qed.

(** Once the command line is parsed, the script body looks at the
    number of arguments left. *)
Lemma main_parsed w argv s opts args s' :
  optparse.parse_args parser version argv s = (Ok (opts, args), s') ->
  main w argv s =
    ((if (length args =? 1)%nat || (3 <? length args)%nat
      then usage_lines argv else ret tt) ;;
     dir1 <- index args 1 ;;
     dir2 <- (if (2 <? length args)%nat then index args 2 else ret ".") ;;
     startup w dir1 dir2 opts) (bound s' opts).
Proof.
  intros H. unfold main.
  rewrite (bind_ok _ _ _ _ _ H). reflexivity.
Qed.

Lemma usage_lines_run prog argv s :
  usage_lines (prog :: argv) s
  = (Raise (SystemExit 1), log s (usage_message prog)).
Proof.
  unfold usage_lines, index, bind, emit, raise, ret, log, usage_message; simpl.
  rewrite <- app_assoc. reflexivity.
Qed.

(** C8, as stated, fails: with no directory on the command line the
    script prints the usage message and exits with status 1; it does
    not go on with the current directory. *)
Lemma main_no_directory_counterexample :
  main Example.world ["meson.py"] initial_state
  = (Raise (SystemExit 1),
     mk_State (Some default_configuration) new_object
       (usage_message "meson.py")).
Proof. vm_compute; reflexivity. Qed.

(** C8, amended.  Let the command line parse to the program name and
    the directories [dirs].  With one directory the second is the
    current directory, [.]; with two they are taken as given; with
    none, or with more than two, the script prints the two lines of
    the usage message and exits with status 1. *)
Theorem main_positional_arguments w argv s opts prog dirs s' :
  optparse.parse_args parser version argv s = (Ok (opts, prog :: dirs), s') ->
  (forall d1, dirs = [d1] ->
     main w argv s = startup w d1 "." opts (bound s' opts)) /\
  (forall d1 d2, dirs = [d1; d2] ->
     main w argv s = startup w d1 d2 opts (bound s' opts)) /\
  (dirs = [] \/ (2 < length dirs)%nat ->
   exists prog0,
     nth_error argv 0 = Some prog0 /\
     main w argv s
     = (Raise (SystemExit 1), log (bound s' opts) (usage_message prog0))).
Proof.
  intros H. rewrite (main_parsed w _ _ _ _ _ H).
  split; [|split].
  - intros d1 ->. reflexivity.
  - intros d1 d2 ->. reflexivity.
  - intros Hd.
    destruct argv as [|prog0 argv'].
    { rewrite parse_args_nil in H; discriminate. }
    exists prog0. split; [reflexivity|].
    assert (E : ((length (prog :: dirs) =? 1)%nat
                 || (3 <? length (prog :: dirs))%nat) = true).
    { destruct Hd as [->|Hd]; [reflexivity|].
      apply orb_true_iff; right. apply Nat.ltb_lt. simpl; lia. }
    rewrite E. apply bind_raise, usage_lines_run.
Qed.

Lemma main_positional_arguments_witness :
  main Example.world ["meson.py"; "src"] initial_state
  = startup Example.world "src" "." default_configuration
      (bound initial_state default_configuration).
Proof.
  exact (proj1 (main_positional_arguments Example.world ["meson.py"; "src"]
                  initial_state default_configuration "meson.py" ["src"]
                  initial_state eq_refl) "src" eq_refl).
Defined.

(** ** Whole runs on the example tree *)

(** [meson.py src out]: the directories are told apart, both lines are
    printed and all six collaborator calls are made, with ninja. *)
Example main_src_out :
  let r := main Example.world ["meson.py"; "src"; "out"] initial_state in
  fst r = Ok tt /\
  trace (snd r) =
    [EGetcwd; EGetcwd; EGetcwd;
     EStat "/home/u/proj/src"; EStat "/home/u/proj/out";
     EStat "src"; EStat "out";
     EOpen "/home/u/proj/src/meson.build";
     EOpen "/home/u/proj/out/meson.build";
     EPrint "Source dir: /home/u/proj/src";
     EPrint "Build dir: /home/u/proj/out"]
    ++ stages "/home/u/proj/src" "/home/u/proj/out" "/home/u/proj/meson.py"
         default_configuration NinjaGenerator.
Proof. split; vm_compute; reflexivity. Qed.

(** The arguments the other way round give the same roles. *)
Example main_out_src :
  let r := main Example.world ["meson.py"; "out"; "src"] initial_state in
  fst r = Ok tt /\
  source_dir (self (snd r)) = Some "/home/u/proj/src" /\
  build_dir (self (snd r)) = Some "/home/u/proj/out".
Proof. repeat split; vm_compute; reflexivity. Qed.

(** Neither directory holds the marker file: no collaborator is called. *)
Example main_no_marker :
  let r := main Example.world ["meson.py"; "out"; "."] initial_state in
  fst r = Raise (MissingMarkerError Example.world) /\
  List.filter is_collaborator (trace (snd r)) = [].
Proof. split; vm_compute; reflexivity. Qed.

(** The interpreter fails: no generator is built. *)
Example generate_bad_project :
  generate Example.world_bad_project (Example.built default_configuration)
  = (Raise (CollaboratorError "interpreter"),
     log (Example.built default_configuration)
       [EEnvironment "/home/u/proj/src" "/home/u/proj/out"
          "/home/u/proj/meson.py" default_configuration;
        EBuild; EInterpreter; EInterpreterRun]).
Proof. vm_compute; reflexivity. Qed.

(** Options on the command line: [-Gshell --strip --buildt plain]. *)
Example parse_args_options :
  let r := optparse.parse_args parser version
             ["meson.py"; "src"; "-Gshell"; "--strip"; "--buildt"; "plain";
              "out"; "--prefix=/opt"] initial_state in
  fst r =
    Ok (<["prefix" := VStr "/opt"]>
          (<["buildtype" := VStr "plain"]>
             (<["strip" := VBool true]>
                (<["generator" := VStr "shell"]> default_configuration))),
        ["meson.py"; "src"; "out"]).
Proof. vm_compute; reflexivity. Qed.

(** A build type outside the three choices is a usage error. *)
Example parse_args_bad_choice :
  optparse.parse_args parser version ["meson.py"; "--buildtype=fast"]
    initial_state
  = (Raise (SystemExit 2), log initial_state [EUsageError]).
Proof. vm_compute; reflexivity. Qed.

(** * Further properties of the code *)

(** ** The resolver and the constructor *)

(** X1.  Whatever its arguments and whatever the file system holds,
    [validate_dirs] asks for the current directory at most twice, then
    stats at most four paths, then opens at most two files, in that
    order, and causes no other event: nothing is printed and no
    collaborator is called. *)
Theorem validate_dirs_system_calls w dir1 dir2 s :
  exists evs,
    trace (snd (validate_dirs w dir1 dir2 s)) = trace s ++ evs /\
    evs = List.filter is_getcwd evs ++ List.filter is_stat evs
            ++ List.filter is_probe evs /\
    (length (List.filter is_getcwd evs) <= 2)%nat /\
    (length (List.filter is_stat evs) <= 4)%nat /\
    (length (List.filter is_probe evs) <= 2)%nat.
Proof.
  unfold validate_dirs, abspath, os_getcwd, samefile, stat_call,
    has_builder_file, try_except_IOError, open_r, read_options,
    get_self, set_self.
  cbv [bind ret raise emit]; cbn [fst snd trace globals_options self].
  destruct (posixpath.isabs dir1), (posixpath.isabs dir2);
    cbn [fst snd trace globals_options self].
  all: repeat
    (match goal with
     | |- context [match os_stat ?w0 ?p with _ => _ end] =>
         destruct (os_stat w0 p)
     | |- context [if negb (stat.S_ISDIR ?m) then _ else _] =>
         destruct (stat.S_ISDIR m)
     | |- context [match globals_options ?s0 with _ => _ end] =>
         destruct (globals_options s0)
     | |- context [if samestat ?a ?b then _ else _] =>
         destruct (samestat a b)
     | |- context [if can_open ?w0 ?p then _ else _] =>
         destruct (can_open w0 p)
     end; cbn [fst snd trace globals_options self negb]).
  all: eexists; split;
    [ first [ symmetry; apply app_nil_r
            | rewrite <- ?app_assoc; reflexivity ] | ].
  all: cbn; repeat split; lia.
Qed.

(** X2.  [validate_dirs] reads the module-level name [options] on
    line 79.  Where that name is not bound, as when the class is used
    without running the script body, two good directories make it fail
    with [NameError], right after the two directory tests: [samefile]
    is not called, no marker file is opened and [self] is unchanged. *)
Theorem validate_dirs_needs_global_options w dir1 dir2 s :
  is_dir w dir1 = true ->
  is_dir w dir2 = true ->
  globals_options s = None ->
  validate_dirs w dir1 dir2 s
  = (Raise (NameError "options"),
     log s (abspath_events dir1 ++ abspath_events dir2
              ++ [EStat (abspath_value w dir1);
                  EStat (abspath_value w dir2)])).
Proof.
  unfold is_dir; intros H1 H2 Ho.
  destruct (os_stat w (abspath_value w dir1)) as [r1|] eqn:E1; [|discriminate].
  destruct (os_stat w (abspath_value w dir2)) as [r2|] eqn:E2; [|discriminate].
  unfold validate_dirs.
  rewrite (bind_ok _ _ _ _ _ (abspath_run w _ _)).
  rewrite (bind_ok _ _ _ _ _ (abspath_run w _ _)).
  rewrite (bind_ok _ _ _ _ _ (stat_call_some w _ _ _ E1)).
  rewrite H1; cbn [negb]; unfold bind at 1, ret at 1.
  rewrite (bind_ok _ _ _ _ _ (stat_call_some w _ _ _ E2)).
  rewrite H2; cbn [negb]; unfold bind at 1, ret at 1.
  unfold bind at 1, read_options; cbn [globals_options log]; rewrite Ho.
  rewrite !log_log. reflexivity.
Qed.

Lemma validate_dirs_needs_global_options_witness :
  fst (validate_dirs Example.world "src" "out" initial_state)
  = Raise (NameError "options").
Proof.
  exact (f_equal fst (validate_dirs_needs_global_options Example.world
                        "src" "out" initial_state eq_refl eq_refl eq_refl)).
Defined.

Lemma validate_dirs_raw_stat_fails w dir1 dir2 s o :
  is_dir w dir1 = true ->
  is_dir w dir2 = true ->
  globals_options s = Some o ->
  same_entity w dir1 dir2 = None ->
  exists s',
    validate_dirs w dir1 dir2 s
    = (Raise (OSError (match os_stat w dir1 with
                       | Some _ => dir2
                       | None => dir1
                       end)), s') /\
    List.filter is_probe (trace s') = List.filter is_probe (trace s).
Proof.
  unfold is_dir, same_entity; intros H1 H2 Ho Hs.
  destruct (os_stat w (abspath_value w dir1)) as [r1|] eqn:E1; [|discriminate].
  destruct (os_stat w (abspath_value w dir2)) as [r2|] eqn:E2; [|discriminate].
  unfold validate_dirs.
  rewrite (bind_ok _ _ _ _ _ (abspath_run w _ _)).
  rewrite (bind_ok _ _ _ _ _ (abspath_run w _ _)).
  rewrite (bind_ok _ _ _ _ _ (stat_call_some w _ _ _ E1)).
  rewrite H1; cbn [negb]; unfold bind at 1, ret at 1.
  rewrite (bind_ok _ _ _ _ _ (stat_call_some w _ _ _ E2)).
  rewrite H2; cbn [negb]; unfold bind at 1, ret at 1.
  erewrite bind_ok by (apply read_options_run; exact Ho).
  unfold bind at 1, get_self at 1.
  unfold bind at 1, set_self at 1.
  assert (Pr : forall p, List.filter is_probe (abspath_events p) = []).
  { intros p; unfold abspath_events; destruct (posixpath.isabs p); reflexivity. }
  unfold samefile.
  destruct (os_stat w dir1) as [q1|] eqn:F1.
  - destruct (os_stat w dir2) as [q2|] eqn:F2; [discriminate|].
    unfold bind at 1. unfold bind at 1.
    rewrite (stat_call_some w _ _ _ F1).
    unfold bind at 1. rewrite (stat_call_none w _ _ F2).
    eexists; split; [reflexivity|].
    cbn [log trace globals_options self].
    rewrite !List.filter_app, !Pr. cbn. rewrite !app_nil_r. reflexivity.
  - unfold bind at 1. unfold bind at 1.
    rewrite (stat_call_none w _ _ F1).
    eexists; split; [reflexivity|].
    cbn [log trace globals_options self].
    rewrite !List.filter_app, !Pr. cbn. rewrite !app_nil_r. reflexivity.
Qed.

(** X3.  [os.path.samefile] is given the arguments as they were typed,
    not their canonical forms.  When both canonical forms are
    directories but [os.stat] fails on an argument as given (the empty
    string, whose canonical form is the current directory, is one),
    [validate_dirs] fails with the [OSError] of that argument, the
    first one first, and opens no marker file. *)
Theorem validate_dirs_stats_raw_arguments w dir1 dir2 s o :
  is_dir w dir1 = true ->
  is_dir w dir2 = true ->
  globals_options s = Some o ->
  same_entity w dir1 dir2 = None ->
  let r := validate_dirs w dir1 dir2 s in
  fst r = Raise (OSError (match os_stat w dir1 with
                          | Some _ => dir2
                          | None => dir1
                          end)) /\
  List.filter is_probe (trace (snd r)) = List.filter is_probe (trace s).
Proof.
  intros H1 H2 Ho Hs; cbv zeta.
  destruct (validate_dirs_raw_stat_fails w dir1 dir2 s o H1 H2 Ho Hs)
    as (s' & -> & T).
  split; [reflexivity | exact T].
Qed.

Lemma validate_dirs_stats_raw_arguments_witness :
  abspath_value Example.world "" = "/home/u/proj" /\
  fst (validate_dirs Example.world "" "src"
         (Example.started default_configuration))
  = Raise (OSError "").
Proof.
  split; [reflexivity|].
  exact (proj1 (validate_dirs_stats_raw_arguments Example.world "" "src"
                  (Example.started default_configuration)
                  default_configuration eq_refl eq_refl eq_refl eq_refl)).
Defined.

(** X4.  The prefix test of line 58 looks at the first character of the
    prefix.  With an empty prefix, as after [--prefix=], the
    constructor fails with [IndexError] and not with the prefix
    message, once [validate_dirs] has returned and the resolved pair
    has been stored. *)
Theorem init_empty_prefix w dir1 dir2 script opts s p s' :
  validate_dirs w dir1 dir2 (fresh s) = (Ok p, s') ->
  opts !! "prefix" = Some (VStr "") ->
  __init__ w dir1 dir2 script opts s = (Raise IndexError, resolved s' p).
Proof.
  intros H Hp. unfold __init__.
  unfold bind at 1, set_self at 1.
  rewrite (bind_ok _ _ _ _ _ H).
  unfold bind at 1, get_self at 1.
  unfold bind at 1, set_self at 1.
  unfold bind at 1, prefix_is_relative. rewrite Hp. reflexivity.
Qed.

Lemma init_empty_prefix_witness :
  fst (__init__ Example.world "src" "out" "/home/u/proj/meson.py"
         (<["prefix" := VStr ""]> default_configuration)
         (Example.started default_configuration))
  = Raise IndexError.
Proof.
  exact (f_equal fst (init_empty_prefix Example.world "src" "out"
                        "/home/u/proj/meson.py"
                        (<["prefix" := VStr ""]> default_configuration)
                        (Example.started default_configuration)
                        _ _ eq_refl eq_refl)).
Defined.

(** X5.  The constructor returns exactly when [validate_dirs] returns a
    pair and the prefix starts with a slash; the object then holds that
    pair as source and build directory, the script file and the options
    it was given (which replace the value line 79 had stored), and the
    trace is that of [validate_dirs]. *)
Theorem init_returns_iff w dir1 dir2 script opts s s' :
  __init__ w dir1 dir2 script opts s = (Ok tt, s') <->
  exists p sv rest,
    validate_dirs w dir1 dir2 (fresh s) = (Ok p, sv) /\
    opts !! "prefix" = Some (VStr (String "/" rest)) /\
    s' = constructed sv p script opts.
Proof.
  split.
  - intros H.
    destruct (init_ok_inv w _ _ _ _ _ _ H) as (p & sv & V & ->).
    exists p, sv.
    destruct (opts !! "prefix") as [[[|c rest]|b]|] eqn:Hp.
    + unfold __init__ in H.
      unfold bind at 1, set_self at 1 in H.
      rewrite (bind_ok _ _ _ _ _ V) in H.
      unfold bind at 1, get_self at 1 in H.
      unfold bind at 1, set_self at 1 in H.
      unfold bind at 1, prefix_is_relative in H. rewrite Hp in H.
      discriminate.
    + destruct (Ascii.eqb c "/") eqn:Ec.
      * apply Ascii.eqb_eq in Ec; subst c. exists rest. auto.
      * apply Ascii.eqb_neq in Ec.
        rewrite (init_relative_prefix w _ _ script opts s p sv c rest V Hp Ec)
          in H.
        discriminate.
    + unfold __init__ in H.
      unfold bind at 1, set_self at 1 in H.
      rewrite (bind_ok _ _ _ _ _ V) in H.
      unfold bind at 1, get_self at 1 in H.
      unfold bind at 1, set_self at 1 in H.
      unfold bind at 1, prefix_is_relative in H. rewrite Hp in H.
      discriminate.
    + unfold __init__ in H.
      unfold bind at 1, set_self at 1 in H.
      rewrite (bind_ok _ _ _ _ _ V) in H.
      unfold bind at 1, get_self at 1 in H.
      unfold bind at 1, set_self at 1 in H.
      unfold bind at 1, prefix_is_relative in H. rewrite Hp in H.
      discriminate.
  - intros (p & sv & rest & V & Hp & ->).
    exact (init_absolute_prefix w _ _ script opts s p sv rest V Hp).
Qed.

(** X6.  Once both arguments are directories and [os.stat] succeeds on
    both as given, the order of the two arguments does not matter:
    [validate_dirs] returns the same pair, or fails with the same
    error, either way round. *)
Theorem validate_dirs_order_irrelevant w A B s o :
  globals_options s = Some o ->
  is_dir w A = true ->
  is_dir w B = true ->
  same_entity w A B <> None ->
  fst (validate_dirs w A B s) = fst (validate_dirs w B A s).
Proof.
  intros Ho DA DB HS.
  destruct (same_entity w A B) as [b|] eqn:E; [|congruence].
  pose proof E as E'. rewrite same_entity_sym in E'.
  rewrite (validate_dirs_checked w A B s o b DA DB Ho E).
  rewrite (validate_dirs_checked w B A s o b DB DA Ho E').
  destruct b; [reflexivity|].
  unfold marker_outcome; cbn [fst].
  destruct (has_marker w A), (has_marker w B); reflexivity.
Qed.

Lemma validate_dirs_order_irrelevant_witness :
  fst (validate_dirs Example.world "out" "."
         (Example.started default_configuration))
  = fst (validate_dirs Example.world "." "out"
           (Example.started default_configuration)).
Proof.
  assert (H : same_entity Example.world "out" "." <> None) by discriminate.
  exact (validate_dirs_order_irrelevant Example.world "out" "."
           (Example.started default_configuration) default_configuration
           eq_refl eq_refl eq_refl H).
Defined.

(** ** The option parser *)

Lemma typed_defaults : typed default_configuration.
Proof.
  intros k. destruct (default_configuration !! k) as [[x|b]|] eqn:E; auto.
  intros ->. vm_compute in E. injection E as <-. simpl; auto.
Qed.

Lemma typed_insert_str a x d v :
  typed v ->
  default_configuration !! a = Some (VStr d) ->
  (a = "buildtype" -> In x build_types) ->
  typed (<[a := VStr x]> v).
Proof.
  intros T D B k. unfold Values in *.
  destruct (decide (k = a)) as [->|N].
  - rewrite lookup_insert_eq, D. exact B.
  - rewrite lookup_insert_ne by congruence. apply T.
Qed.

Lemma typed_insert_bool a x d v :
  typed v ->
  default_configuration !! a = Some (VBool d) ->
  typed (<[a := VBool x]> v).
Proof.
  intros T D k. unfold Values in *.
  destruct (decide (k = a)) as [->|N].
  - rewrite lookup_insert_eq, D. exact I.
  - rewrite lookup_insert_ne by congruence. apply T.
Qed.

Lemma match_long_opt_In s o :
  optparse._match_long_opt parser s = Some o -> In o parser.
Proof.
  unfold optparse._match_long_opt.
  destruct (List.find _ parser) as [o'|] eqn:F.
  - intros [= <-]. apply List.find_some in F. tauto.
  - destruct (flat_map _ parser) as [|o' [|? ?]] eqn:P; try discriminate.
    intros [= <-].
    assert (H : In o' (flat_map
                         (fun o => map (fun _ => o)
                            (List.filter (Str.startswith s)
                               (optparse.long_opts o))) parser))
      by (rewrite P; left; reflexivity).
    apply in_flat_map in H as (o'' & Hin & Hm).
    apply in_map_iff in Hm as (? & <- & _). exact Hin.
Qed.

Lemma short_opt_In ch o :
  optparse._short_opt parser ch = Some o -> In o parser.
Proof.
  unfold optparse._short_opt. intros F.
  apply List.find_some in F. tauto.
Qed.

Lemma optparse_error_run {A} s :
  @optparse.error A s = (Raise (SystemExit 2), log s [EUsageError]).
Proof. reflexivity. Qed.

(** One option processed: the values stay typed, or optparse exits. *)
Lemma process_outcome o value values s :
  In o parser ->
  typed values ->
  match optparse.process version o value values s with
  | (Ok v', s') => s' = s /\ typed v'
  | (Raise e, s') => exists ev, s' = log s [ev] /\ optparse_exit e ev
  end.
Proof.
  intros Hin T.
  unfold parser in Hin; cbn [In] in Hin.
  repeat (destruct Hin as [<-|Hin]); [..|destruct Hin];
    unfold optparse.process, optparse.check_value;
    cbn [optparse.action optparse.dest optparse.choices];
    destruct value as [x|]; cbv [bind ret raise emit optparse.error];
    cbn [fst snd];
    try (destruct (existsb (String.eqb x) build_types) eqn:C);
    try (split; [reflexivity|]);
    try exact T;
    try (eexists; split; [reflexivity|]; unfold optparse_exit; tauto);
    try (eapply typed_insert_str; [exact T | reflexivity | discriminate]);
    try (eapply typed_insert_bool; [exact T | reflexivity]).
  eapply typed_insert_str; [exact T | reflexivity |].
  intros _. apply existsb_exists in C as (y & Hy & E).
  apply String.eqb_eq in E; subst y; exact Hy.
Qed.

Lemma short_cluster_outcome chars : forall values s,
  typed values ->
  match optparse.short_cluster parser version chars values s with
  | (Ok (v', pending), s') =>
      s' = s /\ typed v' /\ (forall o, pending = Some o -> In o parser)
  | (Raise e, s') => exists ev, s' = log s [ev] /\ optparse_exit e ev
  end.
Proof.
  induction chars as [|ch tl IH]; intros values s T.
  - cbn. repeat split; [exact T | discriminate].
  - cbn [optparse.short_cluster].
    destruct (optparse._short_opt parser ch) as [o|] eqn:F.
    2:{ rewrite optparse_error_run. eexists; split; [reflexivity|].
        right; auto. }
    apply short_opt_In in F.
    destruct (optparse.takes_value o).
    + destruct tl as [|c tl'].
      * cbn. repeat split; [exact T|]. intros o' [= <-]. exact F.
      * unfold bind.
        pose proof (process_outcome o (Some (String c tl')) values s F T) as P.
        destruct (optparse.process version o (Some (String c tl')) values s)
          as [[v'|e] s1]; [|exact P].
        destruct P as [-> T']. cbn. repeat split; [exact T' | discriminate].
    + unfold bind.
      pose proof (process_outcome o None values s F T) as P.
      destruct (optparse.process version o None values s)
        as [[v'|e] s1]; [|exact P].
      destruct P as [-> T']. apply IH, T'.
Qed.

Lemma sublist_drop_one (largs rest : list string) a :
  sublist (largs ++ rest) (largs ++ a :: rest).
Proof. apply sublist_app; [reflexivity | apply sublist_cons; reflexivity]. Qed.

Lemma sublist_drop_two (largs rest : list string) a b :
  sublist (largs ++ rest) (largs ++ a :: b :: rest).
Proof.
  apply sublist_app; [reflexivity | do 2 apply sublist_cons; reflexivity].
Qed.

Lemma parse_outcome_weaken s pool pool' r :
  sublist pool pool' -> parse_outcome s pool r -> parse_outcome s pool' r.
Proof.
  intros S. destruct r as [[[opts args]|e] s']; cbn; [|auto].
  intros (-> & T & A). repeat split; [exact T | etrans; eauto].
Qed.

(** The loop over the command line, whatever the arguments. *)
Lemma process_args_outcome n : forall rargs largs values s,
  (length rargs <= n)%nat ->
  typed values ->
  parse_outcome s (largs ++ rargs)
    (optparse._process_args parser version rargs largs values s).
Proof.
  induction n as [|n IH]; intros rargs largs values s L T.
  - destruct rargs; [|cbn in L; lia].
    cbn. rewrite app_nil_r. repeat split; [exact T | reflexivity].
  - destruct rargs as [|arg rest].
    { cbn. rewrite app_nil_r. repeat split; [exact T | reflexivity]. }
    cbn [length] in L.
    cbn [optparse._process_args].
    destruct (String.eqb arg "--").
    { cbn. repeat split; [exact T | apply sublist_drop_one]. }
    destruct (Str.startswith "--" arg).
    { destruct (optparse.split_eq arg) as [opt explicit].
      destruct (optparse._match_long_opt parser opt) as [o|] eqn:F.
      2:{ rewrite optparse_error_run. eexists; split; [reflexivity|].
          right; auto. }
      apply match_long_opt_In in F.
      destruct (optparse.takes_value o).
      - destruct explicit as [v|].
        + unfold bind.
          pose proof (process_outcome o (Some v) values s F T) as P.
          destruct (optparse.process version o (Some v) values s)
            as [[v'|e] s1]; [|exact P].
          destruct P as [-> T'].
          apply (parse_outcome_weaken _ _ _ _ (sublist_drop_one largs rest arg)).
          apply IH; [lia | exact T'].
        + destruct rest as [|v rest'].
          { rewrite optparse_error_run. eexists; split; [reflexivity|].
            right; auto. }
          unfold bind.
          pose proof (process_outcome o (Some v) values s F T) as P.
          destruct (optparse.process version o (Some v) values s)
            as [[v'|e] s1]; [|exact P].
          destruct P as [-> T'].
          apply (parse_outcome_weaken _ _ _ _
                   (sublist_drop_two largs rest' arg v)).
          apply IH; [cbn [length] in L; lia | exact T'].
      - destruct explicit as [v|].
        { rewrite optparse_error_run. eexists; split; [reflexivity|].
          right; auto. }
        unfold bind.
        pose proof (process_outcome o None values s F T) as P.
        destruct (optparse.process version o None values s)
          as [[v'|e] s1]; [|exact P].
        destruct P as [-> T'].
        apply (parse_outcome_weaken _ _ _ _ (sublist_drop_one largs rest arg)).
        apply IH; [lia | exact T']. }
    destruct (Str.startswith "-" arg && (1 <? String.length arg)%nat).
    { unfold bind at 1.
      pose proof (short_cluster_outcome
                    (String.substring 1 (String.length arg - 1) arg)
                    values s T) as P.
      destruct (optparse.short_cluster parser version _ values s)
        as [[[v' pending]|e] s1]; [|exact P].
      destruct P as (-> & T' & Hp).
      destruct pending as [o|].
      - destruct rest as [|v rest'].
        { rewrite optparse_error_run. eexists; split; [reflexivity|].
          right; auto. }
        unfold bind.
        pose proof (process_outcome o (Some v) v' s (Hp o eq_refl) T') as P.
        destruct (optparse.process version o (Some v) v' s)
          as [[v''|e] s1]; [|exact P].
        destruct P as [-> T''].
        apply (parse_outcome_weaken _ _ _ _
                 (sublist_drop_two largs rest' arg v)).
        apply IH; [cbn [length] in L; lia | exact T''].
      - apply (parse_outcome_weaken _ _ _ _ (sublist_drop_one largs rest arg)).
        apply IH; [lia | exact T']. }
    replace (largs ++ arg :: rest) with ((largs ++ [arg]) ++ rest)
      by (rewrite <- app_assoc; reflexivity).
    apply IH; [lia | exact T].
Qed.

Lemma parse_args_outcome argv s :
  parse_outcome s argv (optparse.parse_args parser version argv s).
Proof.
  unfold optparse.parse_args.
  rewrite (bind_ok _ _ _ _ _ (get_default_values_run s)).
  apply (process_args_outcome (length argv) argv [] default_configuration s);
    [lia | apply typed_defaults].
Qed.

(** X7.  Whatever the command line, the options object [parse_args]
    returns has the attributes of the defaults and no other, each with
    the type of its default; in particular [prefix] and [generator]
    are strings, so that the prefix test of line 58 can only fail on
    an empty prefix and line 95 always has a name to compare. *)
Theorem parse_args_keeps_attributes argv s opts args s' :
  optparse.parse_args parser version argv s = (Ok (opts, args), s') ->
  (forall k, is_Some (opts !! k) <-> is_Some (default_configuration !! k)) /\
  (forall k d, default_configuration !! k = Some (VStr d) ->
     exists x, opts !! k = Some (VStr x)) /\
  (forall k d, default_configuration !! k = Some (VBool d) ->
     exists b, opts !! k = Some (VBool b)) /\
  (exists p, opts !! "prefix" = Some (VStr p)) /\
  (exists g, opts !! "generator" = Some (VStr g)).
Proof.
  intros H. pose proof (parse_args_outcome argv s) as P.
  rewrite H in P. destruct P as (_ & T & _).
  assert (S : forall k d, default_configuration !! k = Some (VStr d) ->
                exists x, opts !! k = Some (VStr x)).
  { intros k d E. specialize (T k). rewrite E in T.
    destruct (opts !! k) as [[x|b]|]; [eauto | destruct T | destruct T]. }
  split; [|split; [exact S | split; [|split]]].
  - intros k. specialize (T k). unfold is_Some.
    destruct (default_configuration !! k) as [[x|b]|],
             (opts !! k) as [[y|c]|];
      try (destruct T; fail);
      split; intros [? ?]; try discriminate; eauto.
  - intros k d E. specialize (T k). rewrite E in T.
    destruct (opts !! k) as [[x|b]|]; [destruct T | eauto | destruct T].
  - apply (S "prefix" "/usr/local"). reflexivity.
  - apply (S "generator" "ninja"). reflexivity.
Qed.

Lemma parse_args_keeps_attributes_witness :
  exists p,
    (<["generator" := VStr "shell"]> default_configuration : Values)
      !! "prefix" = Some (VStr p).
Proof.
  exact (proj1 (proj2 (proj2 (proj2
           (parse_args_keeps_attributes ["meson.py"; "-G"; "shell"]
              initial_state
              (<["generator" := VStr "shell"]> default_configuration)
              ["meson.py"] initial_state eq_refl))))).
Defined.

(** X8.  The build type of the options object [parse_args] returns is
    always one of [plain], [debug] and [optimized]: any other value
    given to [--buildtype] ends the run before the object exists. *)
Theorem parse_args_buildtype_is_a_choice argv s opts args s' :
  optparse.parse_args parser version argv s = (Ok (opts, args), s') ->
  exists b, opts !! "buildtype" = Some (VStr b) /\ In b build_types.
Proof.
  intros H. pose proof (parse_args_outcome argv s) as P.
  rewrite H in P. destruct P as (_ & T & _).
  specialize (T "buildtype").
  replace (default_configuration !! "buildtype") with (Some (VStr "debug"))
    in T by reflexivity.
  destruct (opts !! "buildtype") as [[b|c]|];
    [eauto | destruct T | destruct T].
Qed.

Lemma parse_args_buildtype_is_a_choice_witness :
  exists b,
    (<["buildtype" := VStr "plain"]> default_configuration : Values)
      !! "buildtype" = Some (VStr b) /\ In b build_types.
Proof.
  exact (parse_args_buildtype_is_a_choice
           ["meson.py"; "--buildtype"; "plain"; "src"] initial_state
           (<["buildtype" := VStr "plain"]> default_configuration)
           ["meson.py"; "src"] initial_state eq_refl).
Defined.

(** X9.  [parse_args] either returns, and then it has printed nothing
    and left the state as it was, or it leaves the program by
    [SystemExit] after exactly one piece of output: status 0 after the
    help text or the version, status 2 after a usage error.  It raises
    nothing else. *)
Theorem parse_args_returns_or_exits argv s :
  match optparse.parse_args parser version argv s with
  | (Ok _, s') => s' = s
  | (Raise e, s') => exists ev, s' = log s [ev] /\ optparse_exit e ev
  end.
Proof.
  pose proof (parse_args_outcome argv s) as P.
  destruct (optparse.parse_args parser version argv s)
    as [[[opts args]|e] s']; [exact (proj1 P) | exact P].
Qed.



Lemma process_args_terminator pre post : forall largs values s,
  no_options pre = true ->
  optparse._process_args parser version (pre ++ "--" :: post) largs values s
    = (Ok (values, largs ++ pre ++ post), s).
Proof.
  induction pre as [|a pre IH]; intros largs values s H.
  - reflexivity.
  - unfold no_options in H; cbn [forallb] in H.
    apply andb_prop in H as [Ha H].
    apply negb_true_iff in Ha.
    destruct (not_option_inv a Ha) as [E1 E2].
    cbn [app optparse._process_args].
    rewrite E1, E2, Ha. cbn [andb].
    rewrite (IH (largs ++ [a]) values s H), <- app_assoc. reflexivity.
Qed.

(** X11.  A bare [--] ends the options: with no option before it,
    everything after it is returned as an argument, untouched, even
    what starts with a dash, and the options keep their defaults.  A
    directory whose name starts with a dash can be given this way. *)
Theorem parse_args_double_dash pre post s :
  no_options pre = true ->
  optparse.parse_args parser version (pre ++ "--" :: post) s
    = (Ok (default_configuration, pre ++ post), s).
Proof.
  intros H. unfold optparse.parse_args.
  rewrite (bind_ok _ _ _ _ _ (get_default_values_run s)).
  apply (process_args_terminator pre post [] default_configuration s H).
Qed.

Lemma parse_args_double_dash_witness :
  optparse.parse_args parser version ["meson.py"; "--"; "-src"; "--strip"]
    initial_state
  = (Ok (default_configuration, ["meson.py"; "-src"; "--strip"]),
     initial_state).
Proof.
  exact (parse_args_double_dash ["meson.py"] ["-src"; "--strip"]
           initial_state eq_refl).
Defined.

(** ** The script as a whole *)

Lemma stages_prefix_collaborators evs rest src bld script o g :
  stages src bld script o g = evs ++ rest ->
  Forall (fun e => is_collaborator e = true) evs.
Proof.
  intros H.
  assert (F : Forall (fun e => is_collaborator e = true)
                (stages src bld script o g))
    by (repeat constructor).
  rewrite H in F. apply Forall_app in F. tauto.
Qed.

Lemma startup_shape w dir1 dir2 opts s :
  exists sys out col,
    trace (snd (startup w dir1 dir2 opts s)) = trace s ++ sys ++ out ++ col /\
    Forall fs_event sys /\
    Forall (fun e => is_collaborator e = true) col /\
    (out = [] /\ col = [] \/
     exists src bld,
       out = [EPrint ("Source dir: " ++ src)%string;
              EPrint ("Build dir: " ++ bld)%string]).
Proof.
  assert (A : Forall fs_event (abspath_events (file__ w))).
  { unfold abspath_events; destruct (posixpath.isabs _); repeat constructor. }
  destruct (init_emits w dir1 dir2 (abspath_value w (file__ w)) opts
              (log s (abspath_events (file__ w)))) as (evs & E & F).
  destruct (__init__ w dir1 dir2 (abspath_value w (file__ w)) opts
              (log s (abspath_events (file__ w)))) as [[[]|e] s1] eqn:I.
  - destruct (init_ok_inv w _ _ _ _ _ _ I) as (p & sv & V & ->).
    rewrite (startup_init_ok w _ _ _ _ _ (fst p) (snd p) I eq_refl eq_refl).
    destruct (generate_events w
                (log (constructed sv p (abspath_value w (file__ w)) opts)
                   [EPrint ("Source dir: " ++ fst p)%string;
                    EPrint ("Build dir: " ++ snd p)%string]))
      as (col & T & (src & bld & script & o & g & rest & P) & _).
    exists (abspath_events (file__ w) ++ evs),
      [EPrint ("Source dir: " ++ fst p)%string;
       EPrint ("Build dir: " ++ snd p)%string], col.
    split; [|split; [apply Forall_app; auto|split]].
    + rewrite T. cbn [snd log trace constructed] in E |- *.
      rewrite E, <- !app_assoc. reflexivity.
    + eapply stages_prefix_collaborators, P.
    + right. eauto.
  - rewrite (startup_init_raise w _ _ _ _ _ _ I).
    exists (abspath_events (file__ w) ++ evs), [], [].
    split; [|split; [apply Forall_app; auto|split; [constructor|auto]]].
    cbn [snd log trace] in E |- *. rewrite E, !app_nil_r, <- app_assoc.
    reflexivity.
Qed.

(** X12.  In every run of the script the events come in three blocks:
    first the system calls, then what is written to the terminal, then
    the calls to the collaborators.  So nothing is printed between two
    system calls, and a collaborator is called only after the source
    and build directory lines have both been printed. *)
Theorem main_events_in_three_blocks w argv s :
  exists sys out col,
    trace (snd (main w argv s)) = trace s ++ sys ++ out ++ col /\
    Forall fs_event sys /\
    Forall (fun e => is_output e = true) out /\
    Forall (fun e => is_collaborator e = true) col /\
    (col <> [] ->
     exists src bld,
       out = [EPrint ("Source dir: " ++ src)%string;
              EPrint ("Build dir: " ++ bld)%string]).
Proof.
  pose proof (parse_args_outcome argv s) as P.
  destruct (optparse.parse_args parser version argv s)
    as [[[opts args]|e] s'] eqn:H.
  2:{ unfold main. rewrite (bind_raise _ _ _ _ _ H).
      destruct P as (ev & -> & X).
      exists [], [ev], []. cbn [snd log trace app].
      repeat split; auto; try congruence.
      constructor; [|constructor].
      destruct X as [[_ [->| ->]]|[_ ->]]; reflexivity. }
  destruct P as (-> & _ & S).
  rewrite (main_parsed w _ _ _ _ _ H).
  destruct args as [|prog [|d1 [|d2 [|d3 more]]]].
  - exists [], [], []. cbn. rewrite app_nil_r.
    repeat split; auto; congruence.
  - destruct argv as [|prog0 argv'].
    { apply sublist_nil_r in S. discriminate. }
    cbn [length Nat.eqb orb].
    rewrite (bind_raise _ _ _ _ _ (usage_lines_run prog0 argv' _)).
    exists [], (usage_message prog0), [].
    cbn [snd log trace bound app]. rewrite app_nil_r.
    repeat split; auto; try congruence. repeat constructor.
  - change (((if (length [prog; d1] =? 1)%nat || (3 <? length [prog; d1])%nat
              then usage_lines argv else ret tt) ;;
             dir1 <- index [prog; d1] 1 ;;
             dir2 <- (if (2 <? length [prog; d1])%nat
                      then index [prog; d1] 2 else ret ".") ;;
             startup w dir1 dir2 opts) (bound s opts))
      with (startup w d1 "." opts (bound s opts)).
    destruct (startup_shape w d1 "." opts (bound s opts))
      as (sys & out & col & T & F1 & F3 & O).
    exists sys, out, col. split; [exact T|]. split; [exact F1|].
    split; [|split; [exact F3|]].
    + destruct O as [[-> _]|(src & bld & ->)]; repeat constructor.
    + intros N. destruct O as [[_ ->]|O]; [congruence | exact O].
  - change (((if (length [prog; d1; d2] =? 1)%nat
                 || (3 <? length [prog; d1; d2])%nat
              then usage_lines argv else ret tt) ;;
             dir1 <- index [prog; d1; d2] 1 ;;
             dir2 <- (if (2 <? length [prog; d1; d2])%nat
                      then index [prog; d1; d2] 2 else ret ".") ;;
             startup w dir1 dir2 opts) (bound s opts))
      with (startup w d1 d2 opts (bound s opts)).
    destruct (startup_shape w d1 d2 opts (bound s opts))
      as (sys & out & col & T & F1 & F3 & O).
    exists sys, out, col. split; [exact T|]. split; [exact F1|].
    split; [|split; [exact F3|]].
    + destruct O as [[-> _]|(src & bld & ->)]; repeat constructor.
    + intros N. destruct O as [[_ ->]|O]; [congruence | exact O].
  - destruct argv as [|prog0 argv'].
    { apply sublist_nil_r in S. discriminate. }
    cbn [length Nat.eqb Nat.ltb Nat.leb orb].
    rewrite (bind_raise _ _ _ _ _ (usage_lines_run prog0 argv' _)).
    exists [], (usage_message prog0), [].
    cbn [snd log trace bound app]. rewrite app_nil_r.
    repeat split; auto; try congruence. repeat constructor.
Qed.

Section IgnoresSelfOptions.

Lemma iso_ret {A} (a : A) : ignores_self_options (ret a).
Proof. intros s o'; reflexivity. Qed.

Lemma iso_raise {A} e : ignores_self_options (@raise A e).
Proof. intros s o'; reflexivity. Qed.

Lemma iso_emit e : ignores_self_options (emit e).
Proof. intros s o'; reflexivity. Qed.

Lemma iso_bind {A B} (m : M A) (k : A -> M B) :
  ignores_self_options m ->
  (forall a, ignores_self_options (k a)) ->
  ignores_self_options (bind m k).
Proof.
  intros Hm Hk s o'. unfold bind. rewrite Hm.
  destruct (m s) as [[a|e] s1]; cbn [fst snd]; [apply Hk | reflexivity].
Qed.

Lemma iso_read_options : ignores_self_options read_options.
Proof.
  intros s o'. unfold read_options, with_self_options; cbn [globals_options].
  destruct (globals_options s) eqn:E; cbn [fst snd globals_options];
    rewrite ?E; reflexivity.
Qed.

Lemma iso_source_dir : ignores_self_options (self_attr "source_dir" source_dir).
Proof.
  intros s o'. unfold self_attr, bind, get_self, with_self_options, ret, raise;
    cbn [self source_dir].
  destruct (source_dir (self s)) eqn:E; cbn [fst snd self source_dir];
    rewrite ?E; reflexivity.
Qed.

Lemma iso_build_dir : ignores_self_options (self_attr "build_dir" build_dir).
Proof.
  intros s o'. unfold self_attr, bind, get_self, with_self_options, ret, raise;
    cbn [self build_dir].
  destruct (build_dir (self s)) eqn:E; cbn [fst snd self build_dir];
    rewrite ?E; reflexivity.
Qed.

Lemma iso_builder_script_file :
  ignores_self_options (self_attr "builder_script_file" builder_script_file).
Proof.
  intros s o'. unfold self_attr, bind, get_self, with_self_options, ret, raise;
    cbn [self builder_script_file].
  destruct (builder_script_file (self s)) eqn:E; cbn [fst snd self builder_script_file];
    rewrite ?E; reflexivity.
Qed.

Lemma iso_call w e : ignores_self_options (call w e).
Proof.
  unfold call. apply iso_bind; [apply iso_emit|]. intros _.
  destruct (collaborator w e); [apply iso_raise | apply iso_ret].
Qed.

Lemma iso_select_generator o : ignores_self_options (select_generator o).
Proof.
  unfold select_generator.
  destruct (o !! "generator") as [[name|b]|];
    try apply iso_raise.
  destruct (String.eqb name "shell"); [apply iso_ret|].
  destruct (String.eqb name "ninja"); [apply iso_ret | apply iso_raise].
Qed.

End IgnoresSelfOptions.

(** X13.  [generate] never reads [self.options]: the environment is
    built with, and the generator is chosen from, the module-level
    [options].  Whatever options the object was constructed with, the
    outcome and the calls made are the same. *)
Theorem generate_ignores_self_options w s o' :
  generate w (with_self_options s o')
  = (fst (generate w s), with_self_options (snd (generate w s)) o').
Proof.
  revert s o'. change (ignores_self_options (generate w)).
  unfold generate.
  repeat first
    [ apply iso_source_dir | apply iso_build_dir
    | apply iso_builder_script_file | apply iso_read_options
    | apply iso_call | apply iso_select_generator
    | apply iso_bind; [|intros ?] ].
Qed.

(** ** The table of installation paths *)

Lemma getitem_in_range {A} (l : list A) i :
  - Z.of_nat (length l) <= i < Z.of_nat (length l) ->
  exists x, getitem l i = Some x.
Proof.
  intros H. unfold getitem.
  destruct (0 <=? i) eqn:P.
  - apply Z.leb_le in P.
    destruct (nth_error l (Z.to_nat i)) eqn:E; [eauto|].
    apply nth_error_None in E. lia.
  - apply Z.leb_gt in P.
    replace (- Z.of_nat (length l) <=? i) with true
      by (symmetry; apply Z.leb_le; lia).
    destruct (nth_error l (Z.to_nat (Z.of_nat (length l) + i))) eqn:E;
      [eauto|].
    apply nth_error_None in E. lia.
Qed.

Lemma attr_name_injective r1 r2 a :
  0 <= r1 < 7 -> 0 <= r2 < 7 ->
  getitem PathModel.attr_name r1 = Some a ->
  getitem PathModel.attr_name r2 = Some a ->
  r1 = r2.
Proof.
  intros H1 H2. unfold getitem.
  replace (0 <=? r1) with true by (symmetry; apply Z.leb_le; lia).
  replace (0 <=? r2) with true by (symmetry; apply Z.leb_le; lia).
  intros E1 E2.
  assert (N : List.NoDup PathModel.attr_name).
  { unfold PathModel.attr_name.
    repeat (apply List.NoDup_cons; [cbn [In]; intuition discriminate|]).
    apply List.NoDup_nil. }
  assert (E : Z.to_nat r1 = Z.to_nat r2).
  { apply (proj1 (List.NoDup_nth_error _) N).
    - change (length PathModel.attr_name) with 7%nat. lia.
    - congruence. }
  lia.
Qed.

(** X14.  An edit of a row of the path table is what the table shows
    afterwards: [setData] with the edit role answers [True], signals
    the change of that cell and stores the text, and [data] then gives
    that text back for the row, in any column but the label column.
    [setData] does not look at the column, so an edit addressed to the
    label column changes the path all the same; and a negative row
    counts from the last row. *)
Theorem path_model_edit_then_read cd r c v c' :
  -7 <= r < 7 ->
  c' <> 0 ->
  exists cd',
    PathModel.setData cd (PathModel.createIndex r c) v Qt.EditRole
    = Ok (true, cd',
          [PathModel.dataChanged (PathModel.createIndex r c)
                                 (PathModel.createIndex r c)]) /\
    PathModel.data cd' (PathModel.createIndex r c') Qt.DisplayRole
    = Ok (PathModel.PyStr v).
Proof.
  intros Hr Hc.
  destruct (getitem_in_range PathModel.attr_name r) as [a Ha];
    [change (length PathModel.attr_name) with 7%nat; lia|].
  unfold PathModel.setData, PathModel.data, PathModel.CoreData in *.
  cbn [PathModel.row PathModel.column PathModel.createIndex negb Z.eqb
       Qt.EditRole Qt.DisplayRole].
  rewrite Ha.
  eexists; split; [reflexivity|].
  replace (c' =? 0) with false by (symmetry; apply Z.eqb_neq; exact Hc).
  rewrite lookup_insert_eq. reflexivity.
Qed.

Lemma path_model_edit_then_read_witness :
  exists cd',
    PathModel.setData ∅ (PathModel.createIndex (-1) 0) "/opt/locale"
      Qt.EditRole
    = Ok (true, cd',
          [PathModel.dataChanged (PathModel.createIndex (-1) 0)
                                 (PathModel.createIndex (-1) 0)]) /\
    PathModel.data cd' (PathModel.createIndex (-1) 1) Qt.DisplayRole
    = Ok (PathModel.PyStr "/opt/locale").
Proof.
  assert (H : 1 <> 0) by lia.
  apply (path_model_edit_then_read ∅ (-1) 0 "/opt/locale" 1); [lia | exact H].
Defined.

(** X15.  An edit of one row of the path table leaves every other row
    as it was: for two different rows of the table, what [data]
    answers for the second, in any column and for any role, is the
    same before and after [setData] on the first. *)
Theorem path_model_edit_other_rows cd r1 c1 v r2 c2 role cd' signals :
  0 <= r1 < 7 ->
  0 <= r2 < 7 ->
  r1 <> r2 ->
  PathModel.setData cd (PathModel.createIndex r1 c1) v Qt.EditRole
  = Ok (true, cd', signals) ->
  PathModel.data cd' (PathModel.createIndex r2 c2) role
  = PathModel.data cd (PathModel.createIndex r2 c2) role.
Proof.
  intros H1 H2 N.
  unfold PathModel.setData, PathModel.data, PathModel.CoreData in *.
  cbn [PathModel.row PathModel.column PathModel.createIndex negb Z.eqb
       Qt.EditRole].
  destruct (getitem PathModel.attr_name r1) as [a1|] eqn:E1; [|discriminate].
  intros [= <- _].
  destruct (negb (role =? Qt.DisplayRole)); [reflexivity|].
  destruct (c2 =? 0); [reflexivity|].
  destruct (getitem PathModel.attr_name r2) as [a2|] eqn:E2; [|reflexivity].
  rewrite lookup_insert_ne; [reflexivity|].
  intros <-. apply N. exact (attr_name_injective r1 r2 a1 H1 H2 E1 E2).
Qed.

Lemma path_model_edit_other_rows_witness :
  PathModel.data (<["prefix" := "/opt"]> {["libdir" := "lib"]})
    (PathModel.createIndex 1 1) Qt.DisplayRole
  = PathModel.data {["libdir" := "lib"]}
      (PathModel.createIndex 1 1) Qt.DisplayRole.
Proof.
  assert (N : 0 <> 1) by lia.
  apply (path_model_edit_other_rows {["libdir" := "lib"]} 0 1 "/opt" 1 1
           Qt.DisplayRole _
           [PathModel.dataChanged (PathModel.createIndex 0 1)
                                  (PathModel.createIndex 0 1)]);
    [lia | lia | exact N | reflexivity].
Defined.
